(** * fix-drizzle-syntax.py: the rewriting rules, the file processor and the driver

    A shallow embedding of [src/fix-drizzle-syntax.py].

    Text.  A Python [str] is modelled as a [string]; a character stands for
    the code point of the same number, so the model covers texts whose code
    points are below 256.  The classes [\w], [\s] and [\d] are the ones of
    Python's [re] for [str] patterns (Unicode mode) on these code points.

    Regular expressions.  [re] is a backtracking matcher: quantifiers are
    greedy, alternatives are tried in order, and the first way to match at the
    leftmost position wins.  The five patterns of the script are written in a
    small abstract syntax that has exactly the constructs they use, and are
    run by a matcher in continuation-passing style, where the continuation
    returning [None] is a backtrack.

    Effects.  [process_file] and [main] run in a state-and-exception monad
    over a world made of a file system and a trace of the operations
    performed.  Opening a file can raise.  A file is read in text mode with
    universal newlines, and written with the line feed as the line separator
    ([os.linesep] of a POSIX system).  The driver comes twice: [run] and
    [main], where testing a path and printing a line to standard output
    succeed, and [run_in] and [main_in], where the environment decides
    whether they raise. *)

From Stdlib Require Import String Ascii NArith List Bool Arith Lia.
From stdpp Require Import base option list gmap strings.

Local Open Scope list_scope.
Local Open Scope string_scope.

(** ** Characters and character classes *)

Definition code (c : ascii) : N := N_of_ascii c.

Definition between (lo hi n : N) : bool := ((lo <=? n) && (n <=? hi))%N.

(** [\d]: the decimal digits. *)
Definition is_digit (c : ascii) : bool := between 48 57 (code c).

(** [\s]: tab to carriage return, the four separators U+001C to U+001F,
    space, next line U+0085 and no-break space U+00A0. *)
Definition is_space (c : ascii) : bool :=
  let n := code c in
  between 9 13 n || between 28 31 n || (n =? 32)%N || (n =? 133)%N || (n =? 160)%N.

(** [\w]: alphanumeric characters and the underscore.  Above U+007F the
    alphanumeric ones are the letters, the superscript digits and the vulgar
    fractions of the Latin-1 block. *)
Definition is_word (c : ascii) : bool :=
  let n := code c in
  between 48 57 n || between 65 90 n || (n =? 95)%N || between 97 122 n
  || (n =? 170)%N || between 178 179 n || (n =? 181)%N || between 185 186 n
  || between 188 190 n || between 192 214 n || between 216 246 n
  || between 248 255 n.

Inductive cls : Type :=
  | Word                       (* \w *)
  | Space                      (* \s *)
  | Digit                      (* \d *)
  | NoneOf (l : list ascii).   (* [^...] *)

Definition mem_ascii (c : ascii) (l : list ascii) : bool :=
  existsb (Ascii.eqb c) l.

Definition cls_ok (k : cls) (c : ascii) : bool :=
  match k with
  | Word => is_word c
  | Space => is_space c
  | Digit => is_digit c
  | NoneOf l => negb (mem_ascii c l)
  end.

(** ** Regular expressions *)

Inductive regex : Type :=
  | Lit (s : string)              (* a run of literal characters *)
  | Many (k : cls)                (* k*, greedy *)
  | Many1 (k : cls)               (* k+, greedy *)
  | Group (n : nat) (r : regex)   (* ( r ), capturing group number n *)
  | Maybe (r : regex)             (* (?: r )?, greedy *)
  | Cat (r1 r2 : regex).          (* r1 r2 *)

Declare Scope regex_scope.
Delimit Scope regex_scope with re.
Bind Scope regex_scope with regex.
Infix ">>" := Cat (at level 62, right associativity) : regex_scope.

(** The groups of a match: entry [n] is the text of group [n], or [None]
    when the group took no part in the match. *)
Definition groups : Type := list (option string).

Definition no_groups : groups := replicate 5 None.

Definition group (g : groups) (n : nat) : option string := mjoin (g !! n).

(** [strip_prefix p s] is what is left of [s] after the prefix [p]. *)
Fixpoint strip_prefix (p s : string) : option string :=
  match p with
  | "" => Some s
  | String a p' =>
      match s with
      | "" => None
      | String b s' => if Ascii.eqb a b then strip_prefix p' s' else None
      end
  end.

(** The text between a position [s] and a later position [s'] of the same
    subject, both given as the rest of the subject from there. *)
Definition consumed (s s' : string) : string :=
  substring 0 (String.length s - String.length s') s.

Section Matcher.
(** The answer of the whole match. *)
Context {R : Type}.

(** [k*]: the longest run first, then one character less at a time. *)
Fixpoint many (k : cls) (s : string) (cont : string -> option R) : option R :=
  match s with
  | String c s' =>
      if cls_ok k c then
        match many k s' cont with
        | Some x => Some x
        | None => cont s
        end
      else cont s
  | "" => cont s
  end.

Definition many1 (k : cls) (s : string) (cont : string -> option R) : option R :=
  match s with
  | String c s' => if cls_ok k c then many k s' cont else None
  | "" => None
  end.

Fixpoint exec (r : regex) (s : string) (g : groups)
    (cont : string -> groups -> option R) : option R :=
  match r with
  | Lit p =>
      match strip_prefix p s with
      | Some s' => cont s' g
      | None => None
      end
  | Many k => many k s (fun s' => cont s' g)
  | Many1 k => many1 k s (fun s' => cont s' g)
  | Group n r' =>
      exec r' s g (fun s' g' => cont s' (<[n := Some (consumed s s')]> g'))
  | Maybe r' =>
      match exec r' s g cont with
      | Some x => Some x
      | None => cont s g
      end
  | Cat r1 r2 => exec r1 s g (fun s' g' => exec r2 s' g' cont)
  end.
End Matcher.

(** [pattern.match] at one position: the rest of the subject after the match
    and the groups. *)
Definition match_here (r : regex) (s : string) : option (string * groups) :=
  exec r s no_groups (fun s' g => Some (s', g)).

(** [re.sub(pattern, repl, s)]: the matches are found from left to right and do
    not overlap; each is replaced by [repl] of its groups.  [skip] counts the
    characters of the current match still to be passed over.  An empty match
    is replaced where it is found and the scan moves on by one character. *)
Fixpoint sub_from (r : regex) (repl : groups -> string) (s : string)
    (skip : nat) : string :=
  match s with
  | "" =>
      match skip, match_here r "" with
      | 0, Some (_, g) => repl g
      | _, _ => ""
      end
  | String c s' =>
      match skip with
      | S n => sub_from r repl s' n
      | 0 =>
          match match_here r s with
          | Some (rest, g) =>
              match String.length s - String.length rest with
              | 0 => repl g ++ String c (sub_from r repl s' 0)
              | S n => repl g ++ sub_from r repl s' n
              end
          | None => String c (sub_from r repl s' 0)
          end
      end
  end.

Definition re_sub (r : regex) (repl : groups -> string) (s : string) : string :=
  sub_from r repl s 0.

(** A replacement template: text and group references [\n].  A reference to
    a group that took no part in the match expands to the empty string. *)
Inductive piece : Type :=
  | Text (s : string)
  | Ref (n : nat).

Fixpoint expand (t : list piece) (g : groups) : string :=
  match t with
  | [] => ""
  | Text s :: t' => s ++ expand t' g
  | Ref n :: t' => default "" (group g n) ++ expand t' g
  end.

(** ** The five rules of [fix_drizzle_syntax] *)

Definition ch (s : string) : list ascii := list_ascii_of_string s.

(** Pattern 1, token by token:
    [db\.query\.  (\w+)  \.findFirst\(\{  \s*  where:  \s*  ([^}]+)  \s*  \}\)] *)
Definition pattern1 : regex :=
  (Lit "db.query." >> Group 1 (Many1 Word) >> Lit ".findFirst({" >> Many Space >>
   Lit "where:" >> Many Space >> Group 2 (Many1 (NoneOf (ch "}"))) >>
   Many Space >> Lit "})")%re.

Definition replacement1 : list piece :=
  [Text "db.select().from("; Ref 1; Text ").where("; Ref 2; Text ").limit(1)"].

(** Pattern 2, token by token:
    [db\.query\.  (\w+)  \.findFirst\(\{  \s*  where:  \s*  ( and\(  [^)]+  \) )  \s*  \}\)] *)
Definition pattern2 : regex :=
  (Lit "db.query." >> Group 1 (Many1 Word) >> Lit ".findFirst({" >> Many Space >>
   Lit "where:" >> Many Space >>
   Group 2 (Lit "and(" >> Many1 (NoneOf (ch ")")) >> Lit ")") >>
   Many Space >> Lit "})")%re.

Definition replacement2 : list piece :=
  [Text "db.select().from("; Ref 1; Text ").where("; Ref 2; Text ").limit(1)"].

(** Pattern 3, token by token:
    [db\.query\.  (\w+)  \.findMany\(\{  \s*  where:  \s*  ([^,}]+)
     (?: ,  \s*  orderBy:  [^}]* )?  (?: ,  \s*  limit:  [^}]* )?  \s*  \}\)] *)
Definition pattern3 : regex :=
  (Lit "db.query." >> Group 1 (Many1 Word) >> Lit ".findMany({" >> Many Space >>
   Lit "where:" >> Many Space >> Group 2 (Many1 (NoneOf (ch ",}"))) >>
   Maybe (Lit "," >> Many Space >> Lit "orderBy:" >> Many (NoneOf (ch "}"))) >>
   Maybe (Lit "," >> Many Space >> Lit "limit:" >> Many (NoneOf (ch "}"))) >>
   Many Space >> Lit "})")%re.

Definition replacement3 : list piece :=
  [Text "db.select().from("; Ref 1; Text ").where("; Ref 2; Text ")"].

(** Pattern 4, token by token:
    [db\.query\.  (\w+)  \.findMany\(\{  \s*  where:  \s*  ([^,}]+)  ,  \s*
     orderBy:  \s*  \[  ([^\]]+)  \]  (?: ,  \s*  limit:  \s*  (\d+) )?  \s*  \}\)] *)
Definition pattern4 : regex :=
  (Lit "db.query." >> Group 1 (Many1 Word) >> Lit ".findMany({" >> Many Space >>
   Lit "where:" >> Many Space >> Group 2 (Many1 (NoneOf (ch ",}"))) >>
   Lit "," >> Many Space >> Lit "orderBy:" >> Many Space >> Lit "[" >>
   Group 3 (Many1 (NoneOf (ch "]"))) >> Lit "]" >>
   Maybe (Lit "," >> Many Space >> Lit "limit:" >> Many Space >>
          Group 4 (Many1 Digit)) >>
   Many Space >> Lit "})")%re.

(** A value formatted in an f-string: [None] prints as its name. *)
Definition fstr (o : option string) : string := default "None" o.

(** The truth value of [limit] in [if limit:]: a non-empty string. *)
Definition truthy (o : option string) : bool :=
  match o with
  | Some s => negb (String.eqb s "")
  | None => false
  end.

Definition replacement4 (g : groups) : string :=
  let table := group g 1 in
  let where_ := group g 2 in
  let orderby := group g 3 in
  let limit := group g 4 in
  let result :=
    "db.select().from(" ++ fstr table ++ ").where(" ++ fstr where_
      ++ ").orderBy(" ++ fstr orderby ++ ")" in
  if truthy limit then result ++ ".limit(" ++ fstr limit ++ ")" else result.

(** Pattern 5, token by token: [db\.query\.  (\w+)  \.findMany\(\)] *)
Definition pattern5 : regex :=
  (Lit "db.query." >> Group 1 (Many1 Word) >> Lit ".findMany()")%re.

Definition replacement5 : list piece :=
  [Text "db.select().from("; Ref 1; Text ")"].

Definition fix_drizzle_syntax (content : string) : string :=
  let content := re_sub pattern1 (expand replacement1) content in
  let content := re_sub pattern2 (expand replacement2) content in
  let content := re_sub pattern3 (expand replacement3) content in
  let content := re_sub pattern4 replacement4 content in
  let content := re_sub pattern5 (expand replacement5) content in
  content.

Definition is_some {A : Type} (o : option A) : bool :=
  match o with
  | Some _ => true
  | None => false
  end.

(** [re.search(pattern, s) is not None]: the pattern matches at some position
    of [s], the end included. *)
Fixpoint found (r : regex) (s : string) : bool :=
  is_some (match_here r s)
  || match s with
     | "" => false
     | String _ s' => found r s'
     end.

(** [p in s] for strings. *)
Fixpoint contains (p s : string) : bool :=
  is_some (strip_prefix p s)
  || match s with
     | "" => false
     | String _ s' => contains p s'
     end.

(** Every character of [s] satisfies [f]. *)
Fixpoint all_chars (f : ascii -> bool) (s : string) : bool :=
  match s with
  | "" => true
  | String c s' => f c && all_chars f s'
  end.

(** None of the five patterns matches anywhere in [t]. *)
Definition no_match (t : string) : bool :=
  negb (found pattern1 t || found pattern2 t || found pattern3 t
        || found pattern4 t || found pattern5 t).

(** The run of [k*] ends before [r]: [r] is empty or its first character is
    not in the class. *)
Definition stops (k : cls) (r : string) : bool :=
  match r with
  | "" => true
  | String c _ => negb (cls_ok k c)
  end.

(** ** The file system, exceptions and the monad of the script *)

Inductive exn : Type :=
  | FileNotFoundError
  | IsADirectoryError
  | PermissionError
  | UnicodeDecodeError
  | UnicodeEncodeError.

(** What a path names: a directory, or a regular file with its read and write
    permissions and its content decoded as UTF-8, line ends as they are in
    the file, [None] when the bytes of the file are not valid UTF-8. *)
Inductive node : Type :=
  | Dir
  | File (r w : bool) (data : option string).

(** The lines of standard output, by the format string that prints them. *)
Inductive line : Type :=
  | Fixed (file_path : string)       (* Fixed: {file_path} *)
  | NoChanges (file_path : string)   (* No changes: {file_path} *)
  | NotFound (file_path : string)    (* Not found: {file_path} *)
  | Summary (fixed_count : nat).     (* Fixed {fixed_count} files *)

Inductive event : Type :=
  | Exists (p : string)              (* Path(p).exists() *)
  | OpenRead (p : string)            (* open(p, 'r', encoding='utf-8') *)
  | OpenWrite (p : string)           (* open(p, 'w', encoding='utf-8') *)
  | Stdout (l : line)                (* print(...) of a status line or the total *)
  | Stderr (p : string) (e : exn).   (* print(..., file=sys.stderr) of the error e on p *)

Record world : Type := World {
  fs : gmap string node;
  trace : list event   (* oldest first *)
}.

Inductive result (A : Type) : Type :=
  | Ok (a : A)
  | Raise (e : exn).
Arguments Ok {A} a.
Arguments Raise {A} e.

Definition M (A : Type) : Type := world -> result A * world.

#[global] Instance M_ret : MRet M := fun A a w => (Ok a, w).

#[global] Instance M_bind : MBind M := fun A B f m w =>
  match m w with
  | (Ok a, w') => f a w'
  | (Raise e, w') => (Raise e, w')
  end.

Definition raise {A : Type} (e : exn) : M A := fun w => (Raise e, w).

(** [try: body except Exception as e: handler(e)] *)
Definition try_except {A : Type} (body : M A) (handler : exn -> M A) : M A :=
  fun w =>
    match body w with
    | (Ok a, w') => (Ok a, w')
    | (Raise e, w') => handler e w'
    end.

Definition log (e : event) : M unit :=
  fun w => (Ok tt, World (fs w) (trace w ++ [e])).

Definition get_fs : M (gmap string node) := fun w => (Ok (fs w), w).

Definition put_fs (m : gmap string node) : M unit :=
  fun w => (Ok tt, World m (trace w)).

(** Universal newlines, the translation [f.read()] makes on a file opened
    without [newline=]: a carriage return, together with the line feed after
    it when there is one, is read as a line feed. *)
Fixpoint universal_newlines (s : string) : string :=
  match s with
  | "" => ""
  | String c s' =>
      if Ascii.eqb c "013" then
        String "010"
          match s' with
          | String d s'' =>
              if Ascii.eqb d "010" then universal_newlines s''
              else universal_newlines s'
          | "" => ""
          end
      else String c (universal_newlines s')
  end.

(** [s] has no carriage return. *)
Definition no_cr (s : string) : bool :=
  all_chars (fun c => negb (Ascii.eqb c "013")) s.

(** The outcome of reading a path as UTF-8 text. *)
Definition read_result (m : gmap string node) (p : string) : result string :=
  match m !! p with
  | None => Raise FileNotFoundError
  | Some Dir => Raise IsADirectoryError
  | Some (File false _ _) => Raise PermissionError
  | Some (File true _ None) => Raise UnicodeDecodeError
  | Some (File true _ (Some text)) => Ok (universal_newlines text)
  end.

(** The outcome of opening a path for writing and writing [text]: a missing
    file is created, an existing one is replaced.  The text is stored as it
    is given: its line feeds are written as line feeds. *)
Definition write_result (m : gmap string node) (p text : string)
    : result (gmap string node) :=
  match m !! p with
  | None => Ok (<[p := File true true (Some text)]> m)
  | Some Dir => Raise IsADirectoryError
  | Some (File _ false _) => Raise PermissionError
  | Some (File r true _) => Ok (<[p := File r true (Some text)]> m)
  end.

(** [with open(p, 'r', encoding='utf-8') as f: f.read()] *)
Definition read_text (p : string) : M string :=
  log (OpenRead p);;
  m ← get_fs;
  match read_result m p with
  | Ok text => mret text
  | Raise e => raise e
  end.

(** [with open(p, 'w', encoding='utf-8') as f: f.write(text)] *)
Definition write_text (p text : string) : M unit :=
  log (OpenWrite p);;
  m ← get_fs;
  match write_result m p text with
  | Ok m' => put_fs m'
  | Raise e => raise e
  end.

(** [Path(p).exists()] *)
Definition path_exists (p : string) : M bool :=
  log (Exists p);;
  m ← get_fs;
  mret (is_some (m !! p)).

(** ** [process_file] and [main] *)

Definition process_file (file_path : string) : M bool :=
  try_except
    (content ← read_text file_path;
     let original_content := content in
     let fixed_content := fix_drizzle_syntax content in
     if negb (String.eqb original_content fixed_content) then
       write_text file_path fixed_content;;
       mret true
     else mret false)
    (fun e =>
       log (Stderr file_path e);;
       mret false).

Definition files_to_process : list string :=
  [ "src/middleware/tenant.ts";
    "src/routes/consulting.ts";
    "src/routes/orchestrator.ts";
    "src/routes/upload.ts";
    "src/services/social-media/scheduler.ts";
    "src/services/stripe.ts";
    "src/services/results/trigger-engine.ts";
    "src/services/workflow/automated-flow.ts";
    "src/services/modules/lxp/lxp-module.ts";
    "src/services/modules/hiring/hiring-module.ts";
    "src/services/orchestrator/architect-ai.ts";
    "src/services/stripe-service.ts" ].

(** The [for file_path in files: ...] loop, with [fixed_count] as its state. *)
Fixpoint for_files (files : list string) (fixed_count : nat) : M nat :=
  match files with
  | [] => mret fixed_count
  | file_path :: rest =>
      e ← path_exists file_path;
      if e : bool then
        changed ← process_file file_path;
        if changed : bool then
          log (Stdout (Fixed file_path));;
          for_files rest (fixed_count + 1)
        else
          log (Stdout (NoChanges file_path));;
          for_files rest fixed_count
      else
        log (Stdout (NotFound file_path));;
        for_files rest fixed_count
  end.

(** The driver on a list of paths; [main] is the driver on the list of the
    script. *)
Definition run (files : list string) : M unit :=
  fixed_count ← for_files files 0;
  log (Stdout (Summary fixed_count)).

Definition main : M unit := run files_to_process.

(** The exit status of the interpreter after [main()]: 0 when it returns, 1
    when an exception escapes it. *)
Definition exit_status (r : result unit) : nat :=
  match r with
  | Ok _ => 0
  | Raise _ => 1
  end.

(** ** The driver in an environment

    [Path(p).exists()] and the [print] calls of [main] stand outside every
    [try].  [exists()] passes on the [PermissionError] of a path it is not
    allowed to examine, and [print] raises [UnicodeEncodeError] when the
    encoding of standard output has no code for the sign that starts each
    status line and the total.  Standard error escapes what it cannot
    encode, so the line [process_file] prints there does not raise. *)
Record env : Type := Env {
  stdout_encodes : bool;       (* standard output can encode the lines *)
  stat_refused : gset string   (* the paths exists() is refused to examine *)
}.

Definition path_exists_in (E : env) (p : string) : M bool :=
  log (Exists p);;
  if bool_decide (p ∈ stat_refused E) then raise PermissionError
  else m ← get_fs; mret (is_some (m !! p)).

Definition print_in (E : env) (l : line) : M unit :=
  if stdout_encodes E then log (Stdout l) else raise UnicodeEncodeError.

Fixpoint for_files_in (E : env) (files : list string) (fixed_count : nat)
    : M nat :=
  match files with
  | [] => mret fixed_count
  | file_path :: rest =>
      e ← path_exists_in E file_path;
      if e : bool then
        changed ← process_file file_path;
        if changed : bool then
          print_in E (Fixed file_path);;
          for_files_in E rest (fixed_count + 1)
        else
          print_in E (NoChanges file_path);;
          for_files_in E rest fixed_count
      else
        print_in E (NotFound file_path);;
        for_files_in E rest fixed_count
  end.

Definition run_in (E : env) (files : list string) : M unit :=
  fixed_count ← for_files_in E files 0;
  print_in E (Summary fixed_count).

Definition main_in (E : env) : M unit := run_in E files_to_process.

(** Environments: one that refuses nothing, one whose standard output
    cannot encode the lines, and one where the second path of the list may
    not be examined. *)
Definition calm : env := Env true ∅.
Definition plain_stdout : env := Env false ∅.
Definition closed_directory : env := Env true {["src/routes/consulting.ts"]}.

(** The operations a run adds to the trace. *)
Definition new_events (w w' : world) : list event :=
  drop (length (trace w)) (trace w').

(** The path whose existence an event tests. *)
Definition exists_path (e : event) : option string :=
  match e with
  | Exists p => Some p
  | _ => None
  end.

(** The path a status line of the driver reports on. *)
Definition status_path (e : event) : option string :=
  match e with
  | Stdout (Fixed p) | Stdout (NoChanges p) | Stdout (NotFound p) => Some p
  | _ => None
  end.

Definition fixed_path (e : event) : option string :=
  match e with
  | Stdout (Fixed p) => Some p
  | _ => None
  end.

(** The path an event opens for reading. *)
Definition read_path (e : event) : option string :=
  match e with
  | OpenRead p => Some p
  | _ => None
  end.

(** The paths tested, the paths opened for reading, the paths reported on,
    and the number of files reported as fixed, in a list of events. *)
Definition exists_paths (evs : list event) : list string := omap exists_path evs.
Definition opened (evs : list event) : list string := omap read_path evs.
Definition reported (evs : list event) : list string := omap status_path evs.
Definition fixed_lines (evs : list event) : nat := length (omap fixed_path evs).

(** An operation of [process_file] on the path [p]. *)
Definition file_event (p : string) (e : event) : Prop :=
  e = OpenRead p \/ e = OpenWrite p \/ exists x, e = Stderr p x.

(** The event [e] is no operation of [process_file] on the path [a] and
    no line that reports [a] as processed. *)
Definition untouched (a : string) (e : event) : Prop :=
  ~ file_event a e /\ e <> Stdout (Fixed a) /\ e <> Stdout (NoChanges a).

(** A file system to run the script on: a file the fifth rule changes, a
    directory where a file is expected, a file no rule changes and a
    read-only file the fifth rule would change.  The other paths of the list
    are absent. *)
Definition sample_fs : gmap string node :=
  <["src/routes/upload.ts" := File true true (Some "const u = db.query.users.findMany();")]>
  (<["src/routes/consulting.ts" := Dir]>
  (<["src/services/stripe.ts" := File true true (Some "export {};")]>
  (<["src/middleware/tenant.ts" := File true false (Some "db.query.tenants.findMany()")]>
   ∅))).

Definition sample_world : world := World sample_fs [].

(** A file with the line ends of Windows that the fifth rule changes, and
    one that no rule changes. *)
Definition crlf_fs : gmap string node :=
  <["a.ts" := File true true
      (Some ("const u = db.query.users.findMany();"
             ++ String "013" (String "010" "export {};")
             ++ String "013" (String "010" "")))]>
  (<["b.ts" := File true true
      (Some ("export {};" ++ String "013" (String "010" "")))]>
   ∅).

(** ** The shape of a [findMany] call with a condition *)

(** What follows the condition inside the braces: nothing, or a comma and an
    [orderBy:] clause with the text [o] after the colon (a [limit:] clause
    after it is part of [o]), or a comma and a [limit:] clause. *)
Inductive clauses : Type :=
  | NoClause
  | OrderByClause (o : string)
  | LimitClause (l : string).

Definition clauses_text (m : clauses) : string :=
  match m with
  | NoClause => ""
  | OrderByClause o => ", orderBy:" ++ o
  | LimitClause l => ", limit:" ++ l
  end.

(** The clauses contain no closing brace. *)
Definition clauses_ok (m : clauses) : bool :=
  match m with
  | NoClause => true
  | OrderByClause o => all_chars (cls_ok (NoneOf (ch "}"))) o
  | LimitClause l => all_chars (cls_ok (NoneOf (ch "}"))) l
  end.

(** The call [db.query.X.findMany({ where: C...})], where the condition [C]
    runs up to the comma of the clauses or to the closing brace. *)
Definition findMany_call (X C : string) (m : clauses) : string :=
  "db.query." ++ X ++ ".findMany({ where: " ++ C ++ clauses_text m ++ "})".

Definition nonempty (s : string) : bool := negb (String.eqb s "").

(** [s] does not end with white space. *)
Fixpoint ends_clean (s : string) : bool :=
  match s with
  | "" => true
  | String c "" => negb (is_space c)
  | String _ s' => ends_clean s'
  end.

(** [s] has no white space at either end. *)
Definition trimmed (s : string) : bool := stops Space s && ends_clean s.

(** ** What a pass of the script leaves behind *)

(** The transformation changes the content read from a file that holds [c]. *)
Definition alters (c : string) : bool :=
  negb (String.eqb (universal_newlines c)
          (fix_drizzle_syntax (universal_newlines c))).

(** The node after [process_file]: a file that can be read, decoded and
    written, and whose content as read the transformation changes, holds the
    transformed content; anything else is as before, line ends included. *)
Definition rewritten (n : node) : node :=
  match n with
  | File true true (Some c) =>
      if alters c then
        File true true (Some (fix_drizzle_syntax (universal_newlines c)))
      else n
  | _ => n
  end.

(** The path names a file that can be read and decoded and whose content
    the transformation changes. *)
Definition differs (m : gmap string node) (p : string) : bool :=
  match m !! p with
  | Some (File true _ (Some c)) => alters c
  | _ => false
  end.

(** The same, and the file can be written. *)
Definition changes (m : gmap string node) (p : string) : bool :=
  match m !! p with
  | Some (File true true (Some c)) => alters c
  | _ => false
  end.

(** The path an event is about; the total is about none. *)
Definition subject (e : event) : option string :=
  match e with
  | Exists p | OpenRead p | OpenWrite p | Stderr p _ => Some p
  | Stdout (Fixed p) | Stdout (NoChanges p) | Stdout (NotFound p) => Some p
  | Stdout (Summary _) => None
  end.

(** What an event of a run over [files] says, read against the file system
    [m] the run started from. *)
Definition truthful (m : gmap string node) (files : list string) (e : event)
    : Prop :=
  match e with
  | Exists p => p ∈ files
  | OpenRead p => p ∈ files /\ is_Some (m !! p)
  | OpenWrite p => p ∈ files /\ differs m p = true
  | Stdout (Fixed p) => p ∈ files /\ changes m p = true
  | Stdout (NoChanges p) => p ∈ files /\ is_Some (m !! p) /\ changes m p = false
  | Stdout (NotFound p) => p ∈ files /\ m !! p = None
  | Stdout (Summary _) => True
  | Stderr p x =>
      p ∈ files
      /\ (read_result m p = Raise x
          \/ exists c, read_result m p = Ok c /\ differs m p = true
                       /\ write_result m p (fix_drizzle_syntax c) = Raise x)
  end.

(** A second pass would leave the file at [p] alone: the content one pass
    writes is matched by none of the patterns. *)
Definition settled (m : gmap string node) (p : string) : bool :=
  match m !! p with
  | Some (File true true (Some c)) =>
      no_match (fix_drizzle_syntax (universal_newlines c))
  | _ => true
  end.

(** ** Text around a call *)

(** One of [p] and [s] is a prefix of the other: [s], continued in some way,
    starts with [p]. *)
Fixpoint compatible (p s : string) : bool :=
  match p, s with
  | "", _ => true
  | _, "" => true
  | String a p', String b s' => Ascii.eqb a b && compatible p' s'
  end.

(** An occurrence of [p] starts inside [s], or could start there once [s] is
    continued. *)
Fixpoint opens (p s : string) : bool :=
  match s with
  | "" => false
  | String _ s' => compatible p s || opens p s'
  end.

(** The calls of the shapes the rules are written for, with the white space
    the patterns allow: [ws1] after the opening brace and [ws2] after
    [where:]. *)
Definition findMany_bare (X : string) : string :=
  "db.query." ++ X ++ ".findMany()".

Definition findFirst_call (X ws1 ws2 C : string) : string :=
  "db.query." ++ X ++ ".findFirst({" ++ ws1 ++ "where:" ++ ws2 ++ C ++ "})".

(** ** Patterns and closing braces *)

(** No part of the pattern can match a closing brace. *)
Fixpoint brace_free (r : regex) : bool :=
  match r with
  | Lit p => all_chars (cls_ok (NoneOf (ch "}"))) p
  | Many k | Many1 k => negb (cls_ok k "}")
  | Group _ r' | Maybe r' => brace_free r'
  | Cat r1 r2 => brace_free r1 && brace_free r2
  end.

(** [s] after its leading white space. *)
Fixpoint skip_spaces (s : string) : string :=
  match s with
  | "" => ""
  | String c s' => if is_space c then skip_spaces s' else s
  end.

(** [s] has a closing brace, and its first one is followed by a character
    other than a closing parenthesis. *)
Fixpoint brace_inside (s : string) : bool :=
  match s with
  | "" => false
  | String c s' =>
      if Ascii.eqb c "}" then
        match s' with
        | "" => false
        | String d _ => negb (Ascii.eqb d ")")
        end
      else brace_inside s'
  end.

(** A text that starts with a [findMany] call up to its condition: [rest] is
    everything after [where:] and the white space [ws2]. *)
Definition findMany_where (X ws1 ws2 rest : string) : string :=
  "db.query." ++ X ++ ".findMany({" ++ ws1 ++ "where:" ++ ws2 ++ rest.

(** A [findMany] call with a condition, an ordering and, optionally, a
    numeric limit, laid out as in the comment on the fourth pattern, and what
    the fourth rule makes of it. *)
Definition limit_clause (N : option string) : string :=
  match N with
  | Some n => ", limit: " ++ n
  | None => ""
  end.

Definition ordered_call (X C O : string) (N : option string) : string :=
  "db.query." ++ X ++ ".findMany({ where: " ++ C ++ ", orderBy: [" ++ O ++ "]"
  ++ limit_clause N ++ " })".

Definition limit_call (N : option string) : string :=
  match N with
  | Some n => ".limit(" ++ n ++ ")"
  | None => ""
  end.

Definition ordered_result (X C O : string) (N : option string) : string :=
  "db.select().from(" ++ X ++ ").where(" ++ C ++ ").orderBy(" ++ O ++ ")"
  ++ limit_call N.

(** The limit, when there is one, is a non-empty run of digits. *)
Definition limit_ok (N : option string) : bool :=
  match N with
  | Some n => nonempty n && all_chars is_digit n
  | None => true
  end.

(** A [findFirst] call whose condition is [and(B)], with the white space
    the second pattern allows. *)
Definition and_call (X ws1 ws2 B ws3 : string) : string :=
  "db.query." ++ X ++ ".findFirst({" ++ ws1 ++ "where:" ++ ws2
  ++ "and(" ++ B ++ ")" ++ ws3 ++ "})".

(** The text of the clause after its keyword. *)
Definition clauses_body (m : clauses) : string :=
  match m with
  | NoClause => ""
  | OrderByClause o => o
  | LimitClause l => l
  end.

(** ** Characters of the groups and of a template *)

(** Every group that took part in the match holds characters that satisfy
    [f] only. *)
Definition groups_ok (f : ascii -> bool) (g : groups) : Prop :=
  Forall (fun o => forall t, o = Some t -> all_chars f t = true) g.

(** The literal parts of a template. *)
Fixpoint template_text (t : list piece) : string :=
  match t with
  | [] => ""
  | Text s :: t' => s ++ template_text t'
  | Ref _ :: t' => template_text t'
  end.

(** ** Texts without nested calls *)











(** * Properties *)

(** ** Strings *)

Lemma append_cons (c : ascii) (s t : string) : String c s ++ t = String c (s ++ t).
Proof. reflexivity. Qed.

Lemma append_nil_l (s : string) : "" ++ s = s.
Proof. reflexivity. Qed.

Lemma append_nil_r (s : string) : s ++ "" = s.
Proof.
  induction s as [|c s IH]; [reflexivity |].
  now rewrite append_cons, IH.
Qed.

Lemma append_assoc (a b c : string) : (a ++ b) ++ c = a ++ b ++ c.
Proof.
  induction a as [|x a IH]; [reflexivity |].
  now rewrite !append_cons, IH.
Qed.

Lemma all_chars_append f a b :
  all_chars f (a ++ b) = all_chars f a && all_chars f b.
Proof.
  induction a as [|c a IH]; [reflexivity |].
  rewrite append_cons. cbn [all_chars]. now rewrite IH, andb_assoc.
Qed.

Lemma length_append (a b : string) :
  String.length (a ++ b) = String.length a + String.length b.
Proof.
  induction a as [|x a IH]; [reflexivity |].
  rewrite append_cons. simpl. now rewrite IH.
Qed.

Lemma substring_append (a b : string) :
  substring 0 (String.length a) (a ++ b) = a.
Proof.
  induction a as [|x a IH].
  - rewrite append_nil_l. now destruct b.
  - rewrite append_cons. simpl. now rewrite IH.
Qed.

Lemma consumed_append (a b : string) : consumed (a ++ b) b = a.
Proof.
  unfold consumed. rewrite length_append.
  replace (String.length a + String.length b - String.length b)
    with (String.length a) by lia.
  apply substring_append.
Qed.

Lemma strip_prefix_append (p s : string) : strip_prefix p (p ++ s) = Some s.
Proof.
  induction p as [|a p IH]; [reflexivity |].
  rewrite append_cons. simpl. now rewrite Ascii.eqb_refl.
Qed.

(** A prefix found in [s] is found in [s ++ t]. *)
Lemma strip_prefix_extend (p s t r : string) :
  strip_prefix p s = Some r -> strip_prefix p (s ++ t) = Some (r ++ t).
Proof.
  revert s; induction p as [|a p IH]; intros s; simpl.
  - now intros [= ->].
  - destruct s as [|b s]; [discriminate |].
    rewrite append_cons.
    destruct (Ascii.eqb a b); [apply IH | discriminate].
Qed.

Lemma strip_prefix_cons (a : ascii) (p : string) (b : ascii) (s : string) :
  strip_prefix (String a p) (String b s)
  = if Ascii.eqb a b then strip_prefix p s else None.
Proof. reflexivity. Qed.

Lemma contains_cons (p : string) (c : ascii) (s : string) :
  contains p (String c s) = is_some (strip_prefix p (String c s)) || contains p s.
Proof. reflexivity. Qed.

Lemma contains_append_l (p s t : string) :
  contains p (s ++ t) = false -> contains p s = false.
Proof.
  induction s as [|c s IH].
  - rewrite append_nil_l. simpl.
    destruct (strip_prefix p "") as [r|] eqn:E; [|reflexivity].
    pose proof (strip_prefix_extend _ _ t _ E) as E'.
    rewrite append_nil_l in E'. destruct t; simpl; now rewrite E'.
  - rewrite append_cons, !contains_cons.
    destruct (strip_prefix p (String c s)) as [r|] eqn:E.
    + rewrite <- append_cons, (strip_prefix_extend _ _ t _ E). discriminate.
    + simpl. intros H. apply orb_false_iff in H as [_ H]. now apply IH.
Qed.

(** ** The matcher *)

Section ManyLemmas.
Context {R : Type}.
Implicit Types (cont : string -> option R).

Lemma many_stops k r cont : stops k r = true -> many k r cont = cont r.
Proof.
  destruct r as [|c r]; simpl; [reflexivity |].
  now destruct (cls_ok k c).
Qed.

(** Greedy: when the continuation accepts the longest run, that is the
    match. *)
Lemma many_greedy k a r cont x :
  all_chars (cls_ok k) a = true -> stops k r = true ->
  cont r = Some x -> many k (a ++ r) cont = Some x.
Proof.
  intros Ha Hr Hx. induction a as [|c a IH].
  - now rewrite append_nil_l, many_stops.
  - simpl in Ha. apply andb_true_iff in Ha as [Hk Ha].
    rewrite append_cons. simpl. now rewrite Hk, IH.
Qed.

(** Backtracking: when the continuation refuses every shorter run too,
    there is no match. *)
Lemma many_fail k a r cont :
  all_chars (cls_ok k) a = true -> stops k r = true ->
  (forall a', all_chars (cls_ok k) a' = true -> cont (a' ++ r) = None) ->
  many k (a ++ r) cont = None.
Proof.
  intros Ha Hr Hc. induction a as [|c a IH].
  - rewrite append_nil_l, many_stops by assumption. apply (Hc "" eq_refl).
  - pose proof Ha as Ha0. simpl in Ha.
    apply andb_true_iff in Ha as [Hk Ha].
    rewrite append_cons. simpl. rewrite Hk, IH by assumption.
    rewrite <- append_cons. now apply Hc.
Qed.

Lemma many1_greedy k a r cont x :
  a <> "" -> all_chars (cls_ok k) a = true -> stops k r = true ->
  cont r = Some x -> many1 k (a ++ r) cont = Some x.
Proof.
  intros Hne Ha Hr Hx. destruct a as [|c a]; [congruence |]. simpl in Ha.
  apply andb_true_iff in Ha as [Hk Ha].
  rewrite append_cons. simpl. rewrite Hk. now apply many_greedy.
Qed.

Lemma many1_fail k a r cont :
  all_chars (cls_ok k) a = true -> stops k r = true ->
  (forall a', all_chars (cls_ok k) a' = true -> cont (a' ++ r) = None) ->
  many1 k (a ++ r) cont = None.
Proof.
  intros Ha Hr Hc. destruct a as [|c a].
  - rewrite append_nil_l. destruct r as [|c r]; [reflexivity |].
    simpl in *. now destruct (cls_ok k c).
  - simpl in Ha. apply andb_true_iff in Ha as [Hk Ha].
    rewrite append_cons. simpl. rewrite Hk. now apply many_fail.
Qed.
End ManyLemmas.

(** ** [re.sub] *)

(** Without a match anywhere, [re.sub] returns its subject. *)
Lemma sub_not_found r repl s : found r s = false -> re_sub r repl s = s.
Proof.
  unfold re_sub. induction s as [|c s IH]; simpl; intros H.
  - destruct (match_here r "") as [[? ?]|]; [discriminate | reflexivity].
  - apply orb_false_iff in H as [H1 H2].
    destruct (match_here r (String c s)) as [[? ?]|]; [discriminate |].
    now rewrite IH.
Qed.

(** The characters of a match are passed over. *)
Lemma sub_from_skip_all r repl s :
  match_here r "" = None -> sub_from r repl s (String.length s) = "".
Proof.
  intros H. induction s as [|c s IH]; simpl; [now rewrite H | assumption].
Qed.

(** One match that covers the whole subject is replaced, and nothing else. *)
Lemma sub_whole r repl s g :
  s <> "" -> match_here r s = Some ("", g) -> match_here r "" = None ->
  re_sub r repl s = repl g.
Proof.
  intros Hne Hm He. unfold re_sub. destruct s as [|c s]; [congruence |].
  simpl sub_from. rewrite Hm. simpl String.length.
  rewrite Nat.sub_0_r, sub_from_skip_all by assumption.
  apply append_nil_r.
Qed.

(** A pattern that starts with literal text finds nothing in a subject that
    does not contain that text. *)
Lemma found_needs_literal p r s :
  contains p s = false -> found (Lit p >> r) s = false.
Proof.
  induction s as [|c s IH]; simpl; intros H.
  - unfold match_here. simpl.
    destruct (strip_prefix p ""); [discriminate | reflexivity].
  - apply orb_false_iff in H as [H1 H2].
    rewrite IH by assumption. unfold match_here. simpl.
    destruct (strip_prefix p (String c s)); [discriminate | reflexivity].
Qed.

(** ** [fix_drizzle_syntax] *)

Lemma no_match_inv t :
  no_match t = true ->
  found pattern1 t = false /\ found pattern2 t = false /\
  found pattern3 t = false /\ found pattern4 t = false /\
  found pattern5 t = false.
Proof.
  unfold no_match. intros H. apply negb_true_iff in H.
  repeat (apply orb_false_iff in H as [H ?]). tauto.
Qed.

Lemma fix_no_match t : no_match t = true -> fix_drizzle_syntax t = t.
Proof.
  intros H. apply no_match_inv in H as (H1 & H2 & H3 & H4 & H5).
  unfold fix_drizzle_syntax.
  rewrite (sub_not_found pattern1) by assumption.
  rewrite (sub_not_found pattern2) by assumption.
  rewrite (sub_not_found pattern3) by assumption.
  rewrite (sub_not_found pattern4) by assumption.
  now apply sub_not_found.
Qed.

(** Every pattern starts with the literal text [db.query.]. *)
Lemma no_match_without_prefix t :
  contains "db.query." t = false -> no_match t = true.
Proof.
  intros H. unfold no_match.
  unfold pattern1, pattern2, pattern3, pattern4, pattern5.
  now rewrite !found_needs_literal.
Qed.

(** C1.  On [db.query.users.findFirst({ where: eq(id, 1) })] the first rule
    matches, and its second group, [[^}]+], is greedy: it takes the condition
    together with the space before the closing brace, which the [\s*] after
    it was meant to take.  The result is the documented target shape with a
    space before the parenthesis that closes [where(...)]. *)
Theorem findFirst_example_keeps_space :
  fix_drizzle_syntax "db.query.users.findFirst({ where: eq(id, 1) })"
  = "db.select().from(users).where(eq(id, 1) ).limit(1)".
Proof. vm_compute. reflexivity. Qed.

(** C2.  On the [findMany] example with [where], [orderBy] and [limit] no
    rule matches: the condition [eq(author, 2)] contains a comma, which the
    group [[^,}]+] of the third and the fourth rule cannot cross.  The text
    is returned as it is. *)
Theorem findMany_example_unchanged :
  fix_drizzle_syntax
    "db.query.posts.findMany({ where: eq(author, 2), orderBy: [desc(createdAt)], limit: 5 })"
  = "db.query.posts.findMany({ where: eq(author, 2), orderBy: [desc(createdAt)], limit: 5 })".
Proof. vm_compute. reflexivity. Qed.

(** C8.  [db.query.posts.findMany()] is rewritten to
    [db.select().from(posts)]. *)
Theorem findMany_bare_example :
  fix_drizzle_syntax "db.query.posts.findMany()" = "db.select().from(posts)".
Proof. vm_compute. reflexivity. Qed.

(** C10.  A text that does not contain [db.query.] is returned unchanged. *)
Theorem fix_without_prefix_unchanged (t : string) :
  contains "db.query." t = false -> fix_drizzle_syntax t = t.
Proof. intros H. apply fix_no_match, no_match_without_prefix, H. Qed.

Lemma fix_without_prefix_unchanged_witness :
  contains "db.query." "const rows = await db.select().from(users);" = false
  /\ fix_drizzle_syntax "const rows = await db.select().from(users);"
     = "const rows = await db.select().from(users);".
Proof.
  split; [reflexivity |].
  apply (fix_without_prefix_unchanged "const rows = await db.select().from(users);").
  reflexivity.
Defined.


(** ** Running a pattern step by step

    Each lemma takes one construct off the front of a pattern whose match
    along the preferred branch succeeds ([exec_*]), or shows that no branch
    of it can succeed ([exec_*_fail]). *)

Section ExecLemmas.
Context {R : Type}.
Implicit Types (cont : string -> groups -> option R).

Lemma exec_cat_assoc4 r1 r2 r3 r4 r5 s g cont :
  exec ((r1 >> r2 >> r3 >> r4) >> r5) s g cont
  = exec (r1 >> r2 >> r3 >> r4 >> r5) s g cont.
Proof. reflexivity. Qed.

Lemma exec_lit_eq p rest s g cont :
  exec (Lit p >> rest) (p ++ s) g cont = exec rest s g cont.
Proof. simpl. now rewrite strip_prefix_append. Qed.

Lemma exec_lit_last p g cont : exec (Lit p) p g cont = cont "" g.
Proof.
  simpl. rewrite <- (append_nil_r p) at 2. now rewrite strip_prefix_append.
Qed.

Lemma exec_many k rest a r g cont x :
  all_chars (cls_ok k) a = true -> stops k r = true ->
  exec rest r g cont = Some x ->
  exec (Many k >> rest) (a ++ r) g cont = Some x.
Proof. intros Ha Hr H. simpl. now apply many_greedy. Qed.

Lemma exec_group_many1 n k rest a r g cont x :
  a <> "" -> all_chars (cls_ok k) a = true -> stops k r = true ->
  exec rest r (<[n := Some a]> g) cont = Some x ->
  exec (Group n (Many1 k) >> rest) (a ++ r) g cont = Some x.
Proof.
  intros Hne Ha Hr H. simpl.
  apply many1_greedy; try assumption. now rewrite consumed_append.
Qed.

Lemma exec_group_many1_fail n k rest a r g cont :
  all_chars (cls_ok k) a = true -> stops k r = true ->
  (forall a' g', all_chars (cls_ok k) a' = true ->
                 exec rest (a' ++ r) g' cont = None) ->
  exec (Group n (Many1 k) >> rest) (a ++ r) g cont = None.
Proof.
  intros Ha Hr H. simpl.
  apply many1_fail; try assumption. intros a' Ha'. now apply H.
Qed.

Lemma exec_maybe_take r' rest s g cont x :
  exec (r' >> rest) s g cont = Some x ->
  exec (Maybe r' >> rest) s g cont = Some x.
Proof. simpl. now intros ->. Qed.

Lemma exec_maybe_skip r' rest s g cont x :
  exec (r' >> rest) s g cont = None ->
  exec rest s g cont = Some x ->
  exec (Maybe r' >> rest) s g cont = Some x.
Proof. simpl. now intros -> ->. Qed.

(** Literal text that starts with a character outside the class [k] is
    not found after a run of [k], unless it is there after the whole
    run. *)
Lemma exec_lit_after_run_fail k d p rest a r g cont :
  cls_ok k d = false -> all_chars (cls_ok k) a = true ->
  strip_prefix (String d p) r = None ->
  exec (Lit (String d p) >> rest) (a ++ r) g cont = None.
Proof.
  intros Hd Ha Hr. cbn [exec].
  destruct a as [|c a]; [now rewrite append_nil_l, Hr |].
  rewrite append_cons. simpl in *.
  destruct (Ascii.eqb_spec d c) as [->|]; [|reflexivity].
  rewrite Hd in Ha. discriminate.
Qed.
End ExecLemmas.

Lemma stops_append k a r : a <> "" -> stops k a = true -> stops k (a ++ r) = true.
Proof. destruct a; [congruence | trivial]. Qed.

(** ** Where [db.query.] can occur *)

(** Text added after [s] that shares no character with [p] brings no new
    occurrence of [p]. *)
Lemma strip_prefix_foreign_tail p s e :
  all_chars (fun c => negb (mem_ascii c (ch p))) e = true ->
  is_some (strip_prefix p (s ++ e)) = is_some (strip_prefix p s).
Proof.
  revert s e. induction p as [|a p IH]; intros s e He; [reflexivity |].
  destruct s as [|c s].
  - rewrite append_nil_l. destruct e as [|b e]; [reflexivity |].
    simpl in *. apply andb_true_iff in He as [Hb _].
    apply negb_true_iff, orb_false_iff in Hb as [Hb _].
    rewrite Ascii.eqb_sym in Hb. now rewrite Hb.
  - rewrite append_cons. simpl. destruct (Ascii.eqb a c); [|reflexivity].
    apply IH. clear -He. induction e as [|b e IHe]; [reflexivity |].
    simpl in *. apply andb_true_iff in He as [Hb He].
    apply negb_true_iff, orb_false_iff in Hb as [_ Hb].
    rewrite Hb. simpl. now apply IHe.
Qed.

Lemma contains_foreign_tail p s e :
  p <> "" ->
  all_chars (fun c => negb (mem_ascii c (ch p))) e = true ->
  contains p (s ++ e) = contains p s.
Proof.
  intros Hp He. induction s as [|c s IH].
  - rewrite append_nil_l. destruct p as [|a p]; [congruence |].
    clear Hp. induction e as [|b e IHe]; [reflexivity |].
    rewrite contains_cons.
    pose proof (strip_prefix_foreign_tail (String a p) "" (String b e) He) as H.
    rewrite append_nil_l in H. rewrite H.
    simpl in He. apply andb_true_iff in He as [_ He].
    now rewrite IHe.
  - rewrite append_cons, !contains_cons, IH.
    rewrite <- append_cons. now rewrite strip_prefix_foreign_tail.
Qed.

(** A run of word characters brings no occurrence of [db.query.], whatever
    follows, unless what follows completes one. *)
Lemma contains_word_run x r :
  all_chars is_word x = true ->
  strip_prefix "b.query." r = None -> strip_prefix ".query." r = None ->
  contains "db.query." (x ++ r) = contains "db.query." r.
Proof.
  intros Hx H1 H2. induction x as [|c x IH]; [reflexivity |].
  simpl in Hx. apply andb_true_iff in Hx as [Hc Hx].
  rewrite append_cons, contains_cons, IH by assumption.
  replace (strip_prefix "db.query." (String c (x ++ r))) with (@None string);
    [reflexivity |].
  rewrite strip_prefix_cons. destruct (Ascii.eqb "d" c); [|reflexivity].
  destruct x as [|c2 x]; [now rewrite append_nil_l, H1 |].
  rewrite append_cons, strip_prefix_cons.
  destruct (Ascii.eqb "b" c2); [|reflexivity].
  destruct x as [|c3 x]; [now rewrite append_nil_l, H2 |].
  rewrite append_cons, strip_prefix_cons.
  destruct (Ascii.eqb_spec "." c3) as [<-|]; [|reflexivity].
  cbn [all_chars] in Hx. apply andb_true_iff in Hx as [_ Hx].
  apply andb_true_iff in Hx as [Hx _]. discriminate.
Qed.

(** ** The third rule on a [findMany] call *)

Lemma nonempty_ne s : nonempty s = true -> s <> "".
Proof. unfold nonempty. now intros H%negb_true_iff%String.eqb_neq. Qed.

(** Inside the call, after its first character, [db.query.] occurs only
    where the condition or the clauses have it. *)
Lemma call_no_inner_prefix X C m :
  all_chars is_word X = true ->
  contains "db.query." (C ++ clauses_text m) = false ->
  contains "db.query."
    ("b.query." ++ X ++ ".findMany({ where: " ++ C ++ clauses_text m ++ "})")
  = false.
Proof.
  intros HX HC. rewrite !append_cons, !append_nil_l. simpl.
  rewrite contains_word_run by (assumption || reflexivity). simpl.
  rewrite <- append_assoc.
  rewrite contains_foreign_tail; [assumption | discriminate | reflexivity].
Qed.

Lemma output_no_prefix X C :
  all_chars is_word X = true ->
  contains "db.query." C = false ->
  contains "db.query." ("db.select().from(" ++ X ++ ").where(" ++ C ++ ")")
  = false.
Proof.
  intros HX HC. rewrite !append_cons, !append_nil_l. simpl.
  rewrite contains_word_run by (assumption || reflexivity). simpl.
  rewrite contains_foreign_tail; [assumption | discriminate | reflexivity].
Qed.

(** The rules for [findFirst] find nothing in the call. *)
Lemma findFirst_rule_not_found r2 X C m :
  all_chars is_word X = true ->
  contains "db.query." (C ++ clauses_text m) = false ->
  found (Lit "db.query." >> Group 1 (Many1 Word) >> Lit ".findFirst({" >> r2)
        (findMany_call X C m) = false.
Proof.
  intros HX HC. unfold findMany_call.
  rewrite (append_cons "d" "b.query."). cbn [found].
  rewrite found_needs_literal by now apply call_no_inner_prefix.
  rewrite orb_false_r, <- append_cons.
  unfold match_here. rewrite exec_lit_eq.
  rewrite exec_group_many1_fail; [reflexivity | assumption | reflexivity |].
  intros a' g' Ha'.
  apply (exec_lit_after_run_fail Word); [reflexivity | assumption | reflexivity].
Qed.

(** The third pattern matches the whole call; its groups are the table and
    the condition. *)
Lemma pattern3_matches_call X C m :
  nonempty X = true -> all_chars is_word X = true ->
  nonempty C = true -> all_chars (cls_ok (NoneOf (ch ",}"))) C = true ->
  stops Space C = true -> clauses_ok m = true ->
  match_here pattern3 (findMany_call X C m)
  = Some ("", <[2 := Some C]> (<[1 := Some X]> no_groups)).
Proof.
  intros HX%nonempty_ne HXw HC%nonempty_ne HCc HCs Hm.
  unfold match_here, pattern3.
  change (findMany_call X C m)
    with ("db.query." ++ X ++ ".findMany({" ++ " " ++ "where:" ++ " " ++ C
          ++ clauses_text m ++ "})").
  rewrite exec_lit_eq.
  apply exec_group_many1; [assumption | assumption | reflexivity |].
  rewrite exec_lit_eq.
  apply exec_many; [reflexivity | reflexivity |].
  rewrite exec_lit_eq.
  apply exec_many; [reflexivity | now apply stops_append |].
  apply exec_group_many1; [assumption | assumption | now destruct m |].
  destruct m as [|o|l]; cbn [clauses_text clauses_ok] in *.
  - (* no clause: both optional groups are skipped *)
    apply exec_maybe_skip; [reflexivity |].
    apply exec_maybe_skip; [reflexivity |].
    apply exec_many; [reflexivity | reflexivity |].
    now rewrite exec_lit_last.
  - (* orderBy: the first optional group takes everything up to the brace *)
    change ((", orderBy:" ++ o) ++ "})")
      with ("," ++ " " ++ "orderBy:" ++ o ++ "" ++ "})").
    apply exec_maybe_take. rewrite exec_cat_assoc4.
    rewrite exec_lit_eq.
    apply exec_many; [reflexivity | reflexivity |].
    rewrite exec_lit_eq.
    apply exec_many; [assumption | reflexivity |].
    apply exec_maybe_skip; [reflexivity |].
    apply exec_many; [reflexivity | reflexivity |].
    now rewrite exec_lit_last.
  - (* limit: the first optional group fails at [orderBy:], the second takes
       everything up to the brace *)
    change ((", limit:" ++ l) ++ "})")
      with ("," ++ " " ++ "limit:" ++ l ++ "" ++ "})").
    apply exec_maybe_skip; [reflexivity |].
    apply exec_maybe_take. rewrite exec_cat_assoc4.
    rewrite exec_lit_eq.
    apply exec_many; [reflexivity | reflexivity |].
    rewrite exec_lit_eq.
    apply exec_many; [assumption | reflexivity |].
    apply exec_many; [reflexivity | reflexivity |].
    now rewrite exec_lit_last.
Qed.

(** C3, as stated, fails.  A closing brace inside the [orderBy] clause stops
    the third rule, and the fourth rule keeps the ordering and the limit.  A
    call nested in the condition is rewritten as well.  A condition with a
    comma, such as [eq(id, 1)], stops the third rule, and no rule rewrites
    the call.  White space before the closing brace becomes part of the
    condition. *)
Lemma findMany_where_counterexample :
  fix_drizzle_syntax "db.query.p.findMany({ where: c, orderBy: [sql`${x}`], limit: 5 })"
    <> "db.select().from(p).where(c)"
  /\ fix_drizzle_syntax "db.query.a.findMany({ where: exists(db.query.b.findMany())})"
    <> "db.select().from(a).where(exists(db.query.b.findMany()))"
  /\ fix_drizzle_syntax "db.query.posts.findMany({ where: eq(id, 1) })"
    <> "db.select().from(posts).where(eq(id, 1))"
  /\ fix_drizzle_syntax "db.query.posts.findMany({ where: isNull(id) })"
    <> "db.select().from(posts).where(isNull(id))".
Proof. repeat split; vm_compute; discriminate. Qed.

(** C3, amended.  Take a table [X] of word characters, a condition [C]
    without comma or closing brace and without white space at either end,
    and clauses without closing brace, where [db.query.] occurs neither in
    the condition nor in the clauses.  Then the call
    [db.query.X.findMany({ where: C})], with or without an [orderBy] or a
    [limit] clause after the condition, is rewritten to
    [db.select().from(X).where(C)]: the ordering and the limit are
    dropped. *)
Theorem findMany_where_rewrite (X C : string) (m : clauses) :
  nonempty X = true -> all_chars is_word X = true ->
  nonempty C = true -> all_chars (cls_ok (NoneOf (ch ",}"))) C = true ->
  trimmed C = true -> clauses_ok m = true ->
  contains "db.query." (C ++ clauses_text m) = false ->
  fix_drizzle_syntax (findMany_call X C m)
  = "db.select().from(" ++ X ++ ").where(" ++ C ++ ")".
Proof.
  intros HX HXw HC HCc [HCs _]%andb_true_iff Hm Hq.
  assert (Hout : no_match ("db.select().from(" ++ X ++ ").where(" ++ C ++ ")") = true).
  { apply no_match_without_prefix, output_no_prefix; [assumption |].
    exact (contains_append_l _ _ _ Hq). }
  apply no_match_inv in Hout as (_ & _ & _ & H4 & H5).
  unfold fix_drizzle_syntax.
  rewrite (sub_not_found pattern1) by now apply findFirst_rule_not_found.
  rewrite (sub_not_found pattern2) by now apply findFirst_rule_not_found.
  rewrite (sub_whole pattern3 _ _ (<[2 := Some C]> (<[1 := Some X]> no_groups)));
    [ | discriminate | now apply pattern3_matches_call | reflexivity ].
  change (expand replacement3 (<[2 := Some C]> (<[1 := Some X]> no_groups)))
    with ("db.select().from(" ++ X ++ ").where(" ++ C ++ ")").
  rewrite (sub_not_found pattern4) by assumption.
  now apply sub_not_found.
Qed.

Lemma findMany_where_rewrite_witness :
  fix_drizzle_syntax
    "db.query.posts.findMany({ where: isNull(author), orderBy: [desc(createdAt)], limit: 5 })"
  = "db.select().from(posts).where(isNull(author))".
Proof.
  apply (findMany_where_rewrite "posts" "isNull(author)"
           (OrderByClause " [desc(createdAt)], limit: 5 "));
    reflexivity.
Defined.

(** ** [process_file] *)

(** [process_file] by cases: the read fails, the content is unchanged, the
    write succeeds, the write fails. *)
Lemma process_file_eq p w :
  process_file p w =
    match read_result (fs w) p with
    | Raise e => (Ok false, World (fs w) (trace w ++ [OpenRead p; Stderr p e]))
    | Ok c =>
        if String.eqb c (fix_drizzle_syntax c) then
          (Ok false, World (fs w) (trace w ++ [OpenRead p]))
        else
          match write_result (fs w) p (fix_drizzle_syntax c) with
          | Ok m' => (Ok true, World m' (trace w ++ [OpenRead p; OpenWrite p]))
          | Raise e =>
              (Ok false,
               World (fs w) (trace w ++ [OpenRead p; OpenWrite p; Stderr p e]))
          end
    end.
Proof.
  unfold process_file, try_except, read_text, write_text, log, get_fs, put_fs,
    raise, mbind, M_bind, mret, M_ret.
  cbn [fs trace].
  destruct (read_result (fs w) p) as [c|e]; cbn [fs trace].
  - destruct (String.eqb c (fix_drizzle_syntax c)); cbn [negb fs trace];
      [reflexivity |].
    destruct (write_result (fs w) p (fix_drizzle_syntax c)) as [m'|e];
      cbn [fs trace]; now rewrite <- ?app_assoc.
  - now rewrite <- app_assoc.
Qed.

(** A write keeps absent paths absent, as long as the path written exists. *)
Lemma write_result_absent m p text m' a :
  is_Some (m !! p) -> write_result m p text = Ok m' ->
  m !! a = None -> m' !! a = None.
Proof.
  intros [nd Hp] Hw Ha. unfold write_result in Hw. rewrite Hp in Hw.
  assert (p <> a) by congruence.
  destruct nd as [|r [|] d]; try discriminate.
  injection Hw as <-. now rewrite lookup_insert_ne.
Qed.

Lemma read_result_exists m p c : read_result m p = Ok c -> is_Some (m !! p).
Proof.
  unfold read_result. destruct (m !! p); [eauto | discriminate].
Qed.

Ltac file_events :=
  repeat (constructor; [unfold file_event; eauto |]); constructor.

(** [process_file] always returns; it works on its own path only and
    creates no file. *)
Lemma process_file_shape p w :
  exists b m' evs,
    process_file p w = (Ok b, World m' (trace w ++ evs))
    /\ Forall (file_event p) evs
    /\ forall a, fs w !! a = None -> m' !! a = None.
Proof.
  rewrite process_file_eq.
  destruct (read_result (fs w) p) as [c|e] eqn:Hr.
  - destruct (String.eqb c (fix_drizzle_syntax c)).
    + exists false, (fs w), [OpenRead p].
      split; [reflexivity | split; [file_events | trivial]].
    + destruct (write_result (fs w) p (fix_drizzle_syntax c)) as [m'|e] eqn:Hw.
      * exists true, m', [OpenRead p; OpenWrite p].
        split; [reflexivity | split; [file_events |]].
        intros a. eapply write_result_absent; [|eassumption].
        eapply read_result_exists; eassumption.
      * exists false, (fs w), [OpenRead p; OpenWrite p; Stderr p e].
        split; [reflexivity | split; [file_events | trivial]].
  - exists false, (fs w), [OpenRead p; Stderr p e].
    split; [reflexivity | split; [file_events | trivial]].
Qed.

(** ** The driver *)

(** One turn of the loop. *)
Lemma for_files_cons q rest n w :
  for_files (q :: rest) n w =
    if is_some (fs w !! q) then
      match process_file q (World (fs w) (trace w ++ [Exists q])) with
      | (Ok true, w1) =>
          for_files rest (n + 1) (World (fs w1) (trace w1 ++ [Stdout (Fixed q)]))
      | (Ok false, w1) =>
          for_files rest n (World (fs w1) (trace w1 ++ [Stdout (NoChanges q)]))
      | (Raise e, w1) => (Raise e, w1)
      end
    else
      for_files rest n (World (fs w) (trace w ++ [Exists q; Stdout (NotFound q)])).
Proof.
  cbn [for_files].
  unfold path_exists, log, get_fs, mbind, M_bind, mret, M_ret. cbn [fs trace].
  destruct (fs w !! q); cbn [is_some].
  - destruct (process_file q _) as [[[|]|e] w1]; reflexivity.
  - cbn [fs trace]. now rewrite <- app_assoc.
Qed.

Lemma file_events_silent q evs :
  Forall (file_event q) evs ->
  exists_paths evs = [] /\ reported evs = [] /\ omap fixed_path evs = [].
Proof.
  unfold exists_paths, reported.
  induction 1 as [|e evs He _ (IH1 & IH2 & IH3)]; [now repeat split |].
  destruct He as [->|[->|[x ->]]]; cbn; now rewrite IH1, IH2, IH3.
Qed.

Lemma file_events_other q a evs :
  a <> q -> Forall (file_event q) evs -> Forall (untouched a) evs.
Proof.
  intros Hne H. eapply Forall_impl; [exact H |].
  intros e He. unfold untouched, file_event in *.
  destruct He as [->|[->|[x ->]]];
    (split; [intros [?|[?|[? ?]]]; congruence | split; discriminate]).
Qed.

(** The whole loop: it returns, it tests and reports on every path in list
    order, it counts the lines that say [Fixed], and it leaves an absent
    path alone. *)
Lemma for_files_spec files : forall n w,
  exists m' evs,
    for_files files n w = (Ok (n + fixed_lines evs), World m' (trace w ++ evs))
    /\ exists_paths evs = files
    /\ reported evs = files
    /\ forall a, fs w !! a = None ->
         m' !! a = None
         /\ Forall (untouched a) evs
         /\ (a ∈ files -> Stdout (NotFound a) ∈ evs).
Proof.
  induction files as [|q rest IH]; intros n w.
  - exists (fs w), []. split; [|split; [reflexivity | split; [reflexivity |]]].
    + cbn. rewrite app_nil_r, Nat.add_0_r. now destruct w.
    + intros a Ha.
      split; [assumption | split; [constructor | now intros ?%elem_of_nil]].
  - rewrite for_files_cons. destruct (fs w !! q) as [nd|] eqn:Hq; cbn [is_some].
    + destruct (process_file_shape q (World (fs w) (trace w ++ [Exists q])))
        as (b & m1 & evs1 & -> & Hev & Habs).
      cbn [fs trace] in *.
      destruct (file_events_silent _ _ Hev) as (S1 & S2 & S3).
      set (l := if b then Fixed q else NoChanges q).
      set (n' := if b then n + 1 else n).
      destruct (IH n' (World m1 (((trace w ++ [Exists q]) ++ evs1) ++ [Stdout l])))
        as (m' & evs & Hrun & E1 & E2 & Hpath).
      exists m', (Exists q :: evs1 ++ Stdout l :: evs).
      split; [|split; [|split]].
      * transitivity
          (for_files rest n'
             (World m1 (((trace w ++ [Exists q]) ++ evs1) ++ [Stdout l]))).
        { subst l n'. now destruct b. }
        rewrite Hrun. cbn [trace]. f_equal.
        -- f_equal. unfold fixed_lines. cbn. rewrite omap_app, S3. cbn.
           subst l n'. destruct b; cbn; lia.
        -- f_equal. rewrite <- !app_assoc. reflexivity.
      * unfold exists_paths in *. cbn. rewrite omap_app, S1. cbn.
        subst l. destruct b; cbn; now rewrite E1.
      * unfold reported in *. cbn. rewrite omap_app, S2. cbn.
        subst l. destruct b; cbn; now rewrite E2.
      * intros a Ha. assert (a <> q) by congruence.
        destruct (Hpath a (Habs a Ha)) as (P1 & P2 & P3).
        split; [assumption | split].
        -- constructor.
           { split; [intros [?|[?|[? ?]]]; discriminate | split; discriminate]. }
           apply Forall_app. split; [now apply (file_events_other q) |].
           constructor; [|assumption].
           subst l. split; [intros [?|[?|[? ?]]]; destruct b; discriminate |].
           destruct b; split; congruence.
        -- intros [?|Hin]%elem_of_cons; [congruence |].
           apply elem_of_cons; right. apply elem_of_app; right.
           apply elem_of_cons; right. now apply P3.
    + destruct (IH n (World (fs w) (trace w ++ [Exists q; Stdout (NotFound q)])))
        as (m' & evs & -> & E1 & E2 & Hpath).
      cbn [fs trace] in *.
      exists m', (Exists q :: Stdout (NotFound q) :: evs).
      split; [|split; [|split]].
      * now rewrite <- app_assoc.
      * unfold exists_paths in *. cbn. now rewrite E1.
      * unfold reported in *. cbn. now rewrite E2.
      * intros a Ha. destruct (Hpath a Ha) as (P1 & P2 & P3).
        split; [assumption | split].
        -- constructor.
           { split; [intros [?|[?|[? ?]]]; discriminate | split; discriminate]. }
           constructor; [|assumption].
           split; [intros [?|[?|[? ?]]]; discriminate | split; discriminate].
        -- intros [->|Hin]%elem_of_cons.
           ++ apply elem_of_cons; right. apply elem_of_cons; now left.
           ++ apply elem_of_cons; right. apply elem_of_cons; right. now apply P3.
Qed.

Lemma new_events_app w m' evs :
  new_events w (World m' (trace w ++ evs)) = evs.
Proof. unfold new_events. cbn [trace]. apply drop_app_length. Qed.

Ltac not_among :=
  let H := fresh in
  intros H;
  repeat (apply elem_of_cons in H as [H|H]; [discriminate |]);
  now apply elem_of_nil in H.

(** C5.  [process_file] opens the file for writing exactly when the file
    could be read and the transformed content differs from the content
    read.  When it differs and the file can be written, [process_file]
    returns [True] and the file holds the transformed content afterwards,
    with its permissions and every other path as before.  The file system
    changes in no other case.  In particular, for a content that none of the
    five patterns matches, [fix_drizzle_syntax] returns the content, and
    [process_file] only reads the file and returns [False]. *)
Theorem process_file_writes_iff_changed (p : string) (w : world) :
  (OpenWrite p ∈ new_events w (process_file p w).2
   <-> exists c, read_result (fs w) p = Ok c /\ fix_drizzle_syntax c <> c)
  /\ (forall c r d, read_result (fs w) p = Ok c -> fix_drizzle_syntax c <> c ->
        fs w !! p = Some (File r true d) ->
        process_file p w
        = (Ok true,
           World (<[p := File r true (Some (fix_drizzle_syntax c))]> (fs w))
             (trace w ++ [OpenRead p; OpenWrite p])))
  /\ (fs (process_file p w).2 = fs w
      \/ exists c r d, read_result (fs w) p = Ok c /\ fix_drizzle_syntax c <> c
           /\ fs w !! p = Some (File r true d))
  /\ (forall c, read_result (fs w) p = Ok c -> no_match c = true ->
        fix_drizzle_syntax c = c
        /\ process_file p w = (Ok false, World (fs w) (trace w ++ [OpenRead p]))).
Proof.
  rewrite process_file_eq.
  destruct (read_result (fs w) p) as [c|e] eqn:Hr.
  - destruct (String.eqb_spec c (fix_drizzle_syntax c)) as [Heq|Hne].
    + cbn [fst snd]. rewrite new_events_app. split; [split | split; [|split]].
      * not_among.
      * intros (c' & [= <-] & Hc'). congruence.
      * intros c' r d [= <-] Hc'. congruence.
      * now left.
      * intros c' [= <-] _. now split.
    + assert (Hne' : fix_drizzle_syntax c <> c) by congruence.
      unfold write_result.
      destruct (fs w !! p) as [[|r [|] d]|] eqn:Hp;
        cbn [fst snd fs]; rewrite new_events_app;
        (split; [split | split; [|split]]);
        try (intros _; apply elem_of_cons; right; apply elem_of_cons; now left);
        try (intros c' [= <-] Hc'%fix_no_match; congruence);
        try (intros _; now exists c);
        try (intros c' r' d' _ _ [=]; fail);
        try (now left).
      * intros c' r' d' [= <-] _ [= <- <-]. reflexivity.
      * right. now exists c, r, d.
      * unfold read_result in Hr. now rewrite Hp in Hr.
  - cbn [fst snd]. rewrite new_events_app. split; [split | split; [|split]].
    + not_among.
    + intros (c & [=] & _).
    + intros c r d [=].
    + now left.
    + intros c [=].
Qed.

Lemma process_file_writes_iff_changed_witness :
  (fix_drizzle_syntax "const u = db.query.users.findMany();"
   = "const u = db.select().from(users);"
   /\ process_file "src/routes/upload.ts" sample_world
      = (Ok true,
         World
           (<["src/routes/upload.ts" :=
                File true true
                  (Some (fix_drizzle_syntax "const u = db.query.users.findMany();"))]>
              sample_fs)
           [OpenRead "src/routes/upload.ts"; OpenWrite "src/routes/upload.ts"]))
  /\ fix_drizzle_syntax "export {};" = "export {};"
  /\ process_file "src/services/stripe.ts" sample_world
     = (Ok false, World sample_fs [OpenRead "src/services/stripe.ts"]).
Proof.
  split; [split; [vm_compute; reflexivity |] |].
  - apply (proj1 (proj2 (process_file_writes_iff_changed
                           "src/routes/upload.ts" sample_world))
             "const u = db.query.users.findMany();" true
             (Some "const u = db.query.users.findMany();")).
    + reflexivity.
    + vm_compute. discriminate.
    + reflexivity.
  - apply (proj2 (proj2 (proj2 (process_file_writes_iff_changed
                                  "src/services/stripe.ts" sample_world)))).
    + reflexivity.
    + vm_compute. reflexivity.
Defined.

(** C6, as stated, fails: a file that cannot be read and a file that needs
    no change give the same outcome, [False]. *)
Lemma error_outcome_is_unchanged_outcome :
  read_result sample_fs "src/routes/consulting.ts" = Raise IsADirectoryError
  /\ read_result sample_fs "src/services/stripe.ts" = Ok "export {};"
  /\ fix_drizzle_syntax "export {};" = "export {};"
  /\ (process_file "src/routes/consulting.ts" sample_world).1
     = (process_file "src/services/stripe.ts" sample_world).1.
Proof. repeat split; vm_compute; reflexivity. Qed.

(** C6, amended.  [process_file] never lets an exception escape.  When the
    read or the write raises, the exception is printed to standard error,
    the file system is left as it was, and [process_file] returns [False],
    the value it returns for a file that needs no change: the driver prints
    the [No changes] line for the file and goes on to the total. *)
Theorem process_file_catches (p : string) (w : world) :
  (exists b, (process_file p w).1 = Ok b)
  /\ (forall e, read_result (fs w) p = Raise e ->
        process_file p w
        = (Ok false, World (fs w) (trace w ++ [OpenRead p; Stderr p e])))
  /\ (forall c e, read_result (fs w) p = Ok c -> fix_drizzle_syntax c <> c ->
        write_result (fs w) p (fix_drizzle_syntax c) = Raise e ->
        process_file p w
        = (Ok false,
           World (fs w) (trace w ++ [OpenRead p; OpenWrite p; Stderr p e])))
  /\ (forall e, is_Some (fs w !! p) -> read_result (fs w) p = Raise e ->
        run [p] w
        = (Ok tt,
           World (fs w)
             (trace w ++ [Exists p; OpenRead p; Stderr p e;
                          Stdout (NoChanges p); Stdout (Summary 0)]))).
Proof.
  split; [|split; [|split]].
  - destruct (process_file_shape p w) as (b & m' & evs & -> & _). now exists b.
  - intros e Hr. now rewrite process_file_eq, Hr.
  - intros c e Hr Hne Hw. rewrite process_file_eq, Hr, Hw.
    destruct (String.eqb_spec c (fix_drizzle_syntax c)); congruence.
  - intros e [nd Hnd] Hr. unfold run, mbind, M_bind.
    rewrite for_files_cons, Hnd. cbn [is_some].
    rewrite process_file_eq. cbn [fs trace]. rewrite Hr.
    cbn [for_files fs trace]. unfold mret, M_ret, log. cbn [fs trace].
    now rewrite <- !app_assoc.
Qed.

Lemma process_file_catches_witness :
  run ["src/routes/consulting.ts"] sample_world
  = (Ok tt,
     World sample_fs
       [Exists "src/routes/consulting.ts"; OpenRead "src/routes/consulting.ts";
        Stderr "src/routes/consulting.ts" IsADirectoryError;
        Stdout (NoChanges "src/routes/consulting.ts"); Stdout (Summary 0)]).
Proof.
  apply (proj2 (proj2 (proj2
           (process_file_catches "src/routes/consulting.ts" sample_world)))
           IsADirectoryError).
  - exists Dir. reflexivity.
  - reflexivity.
Defined.

Lemma run_eq files w :
  exists m' evs,
    run files w
    = (Ok tt, World m' (trace w ++ evs ++ [Stdout (Summary (fixed_lines evs))]))
    /\ exists_paths evs = files
    /\ reported evs = files
    /\ forall a, fs w !! a = None ->
         m' !! a = None
         /\ Forall (untouched a) evs
         /\ (a ∈ files -> Stdout (NotFound a) ∈ evs).
Proof.
  destruct (for_files_spec files 0 w) as (m' & evs & Hrun & Hrest).
  exists m', evs. split; [|exact Hrest].
  unfold run, mbind, M_bind, log. rewrite Hrun. cbn [fs trace].
  now rewrite <- app_assoc.
Qed.

Lemma untouched_not_elem a evs e :
  Forall (untouched a) evs ->
  (file_event a e \/ e = Stdout (Fixed a) \/ e = Stdout (NoChanges a)) ->
  e ∉ evs.
Proof.
  intros H He Hin. rewrite Forall_forall in H.
  destruct (H e Hin) as (U1 & U2 & U3). tauto.
Qed.

Lemma omap_summary {A} (f : event -> option A) evs n :
  f (Stdout (Summary n)) = None ->
  omap f (evs ++ [Stdout (Summary n)])%list = omap f evs.
Proof. intros H. rewrite omap_app. cbn. rewrite H. apply app_nil_r. Qed.

Lemma fixed_lines_summary evs n :
  fixed_lines (evs ++ [Stdout (Summary n)])%list = fixed_lines evs.
Proof. unfold fixed_lines. now rewrite omap_summary. Qed.

Lemma reported_summary evs n :
  reported (evs ++ [Stdout (Summary n)])%list = reported evs.
Proof. unfold reported. now rewrite omap_summary. Qed.

Lemma exists_paths_summary evs n :
  exists_paths (evs ++ [Stdout (Summary n)])%list = exists_paths evs.
Proof. unfold exists_paths. now rewrite omap_summary. Qed.

(** C7.  For a path of the list that is absent from the file system, the
    driver prints the [Not found] line, the path is still absent afterwards,
    no file is opened at that path, no [Fixed] line is printed for it, and
    the total printed last is the number of [Fixed] lines.  The paths are
    tested and reported on in list order. *)
Theorem run_not_found (files : list string) (w : world) (p : string) :
  p ∈ files -> fs w !! p = None ->
  let w' := (run files w).2 in
  let evs := new_events w w' in
  Stdout (NotFound p) ∈ evs
  /\ fs w' !! p = None
  /\ (OpenRead p ∉ evs) /\ (OpenWrite p ∉ evs)
  /\ (Stdout (Fixed p) ∉ evs)
  /\ last evs = Some (Stdout (Summary (fixed_lines evs)))
  /\ exists_paths evs = files
  /\ reported evs = files.
Proof.
  intros Hin Hp.
  destruct (run_eq files w) as (m' & evs & Hrun & E1 & E2 & Hpath).
  destruct (Hpath p Hp) as (P1 & P2 & P3).
  rewrite Hrun. cbn [snd fs]. rewrite new_events_app.
  assert (Hn : forall e, e <> Stdout (Summary (fixed_lines evs)) -> e ∉ evs ->
               e ∉ (evs ++ [Stdout (Summary (fixed_lines evs))])%list).
  { intros e Hne He [?|?%list_elem_of_singleton]%elem_of_app; tauto. }
  repeat split.
  - apply elem_of_app; left. now apply P3.
  - assumption.
  - apply Hn; [discriminate |].
    apply (untouched_not_elem p); [assumption | left; now left].
  - apply Hn; [discriminate |].
    apply (untouched_not_elem p); [assumption | left; right; now left].
  - apply Hn; [discriminate |].
    apply (untouched_not_elem p); [assumption | right; now left].
  - rewrite fixed_lines_summary. apply last_snoc.
  - now rewrite exists_paths_summary.
  - now rewrite reported_summary.
Qed.

Lemma run_not_found_witness :
  let w' := (run files_to_process sample_world).2 in
  let evs := new_events sample_world w' in
  Stdout (NotFound "src/routes/orchestrator.ts") ∈ evs
  /\ fs w' !! "src/routes/orchestrator.ts" = None
  /\ (OpenRead "src/routes/orchestrator.ts" ∉ evs)
  /\ (OpenWrite "src/routes/orchestrator.ts" ∉ evs)
  /\ (Stdout (Fixed "src/routes/orchestrator.ts") ∉ evs)
  /\ last evs = Some (Stdout (Summary (fixed_lines evs)))
  /\ exists_paths evs = files_to_process
  /\ reported evs = files_to_process.
Proof.
  apply (run_not_found files_to_process sample_world "src/routes/orchestrator.ts").
  - unfold files_to_process. set_solver.
  - reflexivity.
Defined.

(** ** Carriage returns *)


Lemma universal_newlines_no_cr s : no_cr (universal_newlines s) = true.
Proof.
  unfold no_cr.
  assert (H : forall n s, String.length s <= n ->
            all_chars (fun c => negb (Ascii.eqb c "013")) (universal_newlines s) = true).
  { clear s. induction n as [|n IH]; intros [|c s] Hlen; try reflexivity;
      cbn [String.length] in Hlen; [lia |].
    cbn [universal_newlines].
    destruct (Ascii.eqb c "013") eqn:Hc.
    - cbn [all_chars]. change (negb (Ascii.eqb "010" "013")) with true. cbn [andb].
      destruct s as [|d s]; [reflexivity |].
      cbn [String.length] in Hlen.
      destruct (Ascii.eqb d "010"); apply IH; cbn [String.length]; lia.
    - cbn [all_chars]. rewrite Hc. cbn [negb andb]. apply IH. lia. }
  now apply (H (String.length s)).
Qed.

Lemma universal_newlines_id s : no_cr s = true -> universal_newlines s = s.
Proof.
  unfold no_cr. induction s as [|c s IH]; [reflexivity |].
  cbn [all_chars universal_newlines]. intros [Hc Hs]%andb_true_iff.
  apply negb_true_iff in Hc. rewrite Hc. now rewrite IH.
Qed.

Section Invariant.
(** A property of characters that a text and the literal parts of a
    replacement have carries over to the result of [re.sub]. *)
Variable f : ascii -> bool.

Lemma strip_prefix_all p : forall s s',
  strip_prefix p s = Some s' -> all_chars f s = true -> all_chars f s' = true.
Proof.
  induction p as [|a p IH]; intros s s'; [now intros [= ->] |].
  destruct s as [|b s]; [discriminate |].
  rewrite strip_prefix_cons. destruct (Ascii.eqb a b); [|discriminate].
  cbn [all_chars]. intros H [_ Hs]%andb_true_iff. now apply (IH s).
Qed.

Lemma substring_all n : forall s,
  all_chars f s = true -> all_chars f (substring 0 n s) = true.
Proof.
  induction n as [|n IH]; intros [|c s]; try reflexivity.
  cbn [substring all_chars]. intros [Hc Hs]%andb_true_iff.
  rewrite Hc. now apply IH.
Qed.

Context {R : Type}.
Variable Q : R -> Prop.

Lemma many_all k s (cont : string -> option R) x :
  all_chars f s = true ->
  (forall s', all_chars f s' = true -> cont s' = Some x -> Q x) ->
  many k s cont = Some x -> Q x.
Proof.
  intros Hs Hc. induction s as [|c s IH]; cbn [many]; [now apply Hc |].
  cbn [all_chars] in Hs. pose proof Hs as [_ Hs']%andb_true_iff.
  destruct (cls_ok k c); [|now apply Hc].
  destruct (many k s cont) eqn:Hm; [|now apply Hc].
  intros [= ->]. now apply IH.
Qed.

Lemma exec_all r : forall s g (cont : string -> groups -> option R) x,
  all_chars f s = true -> groups_ok f g ->
  (forall s' g', all_chars f s' = true -> groups_ok f g' ->
                 cont s' g' = Some x -> Q x) ->
  exec r s g cont = Some x -> Q x.
Proof.
  induction r as [p|k|k|n r IH|r IH|r1 IH1 r2 IH2]; intros s g cont x Hs Hg Hc;
    cbn [exec].
  - destruct (strip_prefix p s) as [s'|] eqn:Hp; [|discriminate].
    apply Hc; [|assumption]. now apply (strip_prefix_all p s).
  - apply many_all; [assumption |]. intros s' Hs'. now apply Hc.
  - unfold many1. destruct s as [|c s]; [discriminate |].
    cbn [all_chars] in Hs. apply andb_true_iff in Hs as [_ Hs].
    destruct (cls_ok k c); [|discriminate].
    apply many_all; [assumption |]. intros s' Hs'. now apply Hc.
  - apply IH; [assumption | assumption |].
    intros s' g' Hs' Hg'. apply Hc; [assumption |].
    apply Forall_insert; [assumption |].
    intros t [= <-]. now apply substring_all.
  - destruct (exec r s g cont) eqn:He; [|now apply Hc].
    intros [= ->]. now apply (IH s g cont).
  - apply IH1; [assumption | assumption |].
    intros s' g' Hs' Hg'. now apply IH2.
Qed.
End Invariant.

Lemma match_here_all f r s rest g :
  all_chars f s = true -> match_here r s = Some (rest, g) -> groups_ok f g.
Proof.
  intros Hs. unfold match_here.
  apply (exec_all f (fun x => groups_ok f x.2)); [assumption | |].
  - unfold no_groups. now repeat constructor.
  - intros s' g' _ Hg' [= <- <-]. exact Hg'.
Qed.

Lemma sub_from_all f r repl :
  (forall g, groups_ok f g -> all_chars f (repl g) = true) ->
  forall s skip, all_chars f s = true -> all_chars f (sub_from r repl s skip) = true.
Proof.
  intros Hrepl. induction s as [|c s IH]; intros skip Hs.
  - cbn [sub_from]. destruct skip; [|reflexivity].
    destruct (match_here r "") as [[rest g]|] eqn:Hm; [|reflexivity].
    eapply Hrepl, match_here_all; [|exact Hm]. reflexivity.
  - cbn [sub_from]. pose proof Hs as [Hc Hs']%andb_true_iff.
    destruct skip; [|now apply IH].
    destruct (match_here r (String c s)) as [[rest g]|] eqn:Hm.
    + assert (Hg : all_chars f (repl g) = true).
      { eapply Hrepl, match_here_all; [|exact Hm]. exact Hs. }
      destruct (String.length (String c s) - String.length rest);
        rewrite all_chars_append, Hg; cbn [andb all_chars];
        [rewrite Hc; cbn [andb] |]; now apply IH.
    + cbn [all_chars]. rewrite Hc. cbn [andb]. now apply IH.
Qed.

Lemma group_all f g n t :
  groups_ok f g -> group g n = Some t -> all_chars f t = true.
Proof.
  unfold group, groups_ok. intros Hg Hn.
  destruct (g !! n) as [o|] eqn:Ho; [|discriminate]. cbn in Hn. subst o.
  rewrite Forall_lookup in Hg. now apply (Hg n (Some t)).
Qed.

Lemma expand_all f t g :
  all_chars f (template_text t) = true -> groups_ok f g ->
  all_chars f (expand t g) = true.
Proof.
  intros Ht Hg. induction t as [|[s|n] t IH]; [reflexivity | |];
    cbn [expand template_text] in *.
  - rewrite all_chars_append in *. apply andb_true_iff in Ht as [-> Ht].
    now apply IH.
  - rewrite all_chars_append. rewrite IH by assumption.
    destruct (group g n) as [x|] eqn:Hx; [|reflexivity].
    change (default "" (Some x)) with x. now rewrite (group_all f g n x).
Qed.

Lemma fstr_no_cr g n : groups_ok (fun c => negb (Ascii.eqb c "013")) g ->
  no_cr (fstr (group g n)) = true.
Proof.
  intros Hg. unfold fstr. destruct (group g n) as [x|] eqn:Hx; [|reflexivity].
  change (default "None" (Some x)) with x. now apply (group_all _ g n x).
Qed.

Lemma replacement4_no_cr g :
  groups_ok (fun c => negb (Ascii.eqb c "013")) g -> no_cr (replacement4 g) = true.
Proof.
  intros Hg. unfold replacement4.
  pose proof (fstr_no_cr g 1 Hg) as H1. pose proof (fstr_no_cr g 2 Hg) as H2.
  pose proof (fstr_no_cr g 3 Hg) as H3. pose proof (fstr_no_cr g 4 Hg) as H4.
  unfold no_cr in *.
  destruct (truthy (group g 4));
    rewrite !all_chars_append, H1, H2, H3, ?H4; reflexivity.
Qed.

(** The transformation brings no carriage return into a text. *)
Lemma fix_no_cr s : no_cr s = true -> no_cr (fix_drizzle_syntax s) = true.
Proof.
  intros H. unfold fix_drizzle_syntax, re_sub, no_cr in *.
  apply sub_from_all; [intros g; now apply expand_all |].
  apply sub_from_all; [exact replacement4_no_cr |].
  apply sub_from_all; [intros g; now apply expand_all |].
  apply sub_from_all; [intros g; now apply expand_all |].
  apply sub_from_all; [intros g; now apply expand_all |].
  exact H.
Qed.

(** What [process_file] wrote is read back as it was written. *)
Lemma written_read_back c :
  universal_newlines (fix_drizzle_syntax (universal_newlines c))
  = fix_drizzle_syntax (universal_newlines c).
Proof. apply universal_newlines_id, fix_no_cr, universal_newlines_no_cr. Qed.

(** ** More on [process_file] *)

Lemma alters_eqb c :
  String.eqb (universal_newlines c) (fix_drizzle_syntax (universal_newlines c))
  = negb (alters c).
Proof. unfold alters. now rewrite negb_involutive. Qed.

Lemma alter_rewritten_insert (m : gmap string node) p c :
  m !! p = Some (File true true (Some c)) -> alters c = true ->
  <[p := File true true (Some (fix_drizzle_syntax (universal_newlines c)))]> m
  = alter rewritten p m.
Proof.
  intros H Ha. apply map_eq. intros q.
  rewrite lookup_insert, lookup_alter. case_decide; [|reflexivity].
  subst q. rewrite H. cbn. now rewrite Ha.
Qed.

Ltac truthful_events :=
  lazymatch goal with
  | |- Forall _ [] => constructor
  | |- Forall _ (_ :: _) =>
      constructor;
      [cbn [truthful]; repeat split; try assumption | truthful_events]
  end.

(** The value and the file system [process_file] returns, and what each of
    its operations says about the file system it started from. *)
Lemma process_file_full p w :
  exists evs,
    process_file p w
    = (Ok (changes (fs w) p), World (alter rewritten p (fs w)) (trace w ++ evs))
    /\ Forall (file_event p) evs
    /\ (is_Some (fs w !! p) -> Forall (truthful (fs w) [p]) evs).
Proof.
  assert (Hin : p ∈ [p]) by (apply elem_of_cons; now left).
  rewrite process_file_eq. unfold read_result, write_result, changes.
  destruct (fs w !! p) as [[|[|] [|] [c|]]|] eqn:Hp.
  2: { (* readable, writable, valid UTF-8 *)
    rewrite alters_eqb. destruct (alters c) eqn:Ha; cbn [negb].
    - exists [OpenRead p; OpenWrite p].
      rewrite (alter_rewritten_insert _ _ _ Hp Ha).
      split; [reflexivity | split; [file_events |]]. intros Hs.
      rewrite <- Hp in Hs. truthful_events.
      unfold differs. now rewrite Hp.
    - exists [OpenRead p].
      rewrite alter_id
        by (intros x; rewrite Hp; intros [= <-]; cbn; now rewrite Ha).
      split; [reflexivity | split; [file_events |]]. intros Hs.
      rewrite <- Hp in Hs. truthful_events. }
  3: { (* readable, read-only, valid UTF-8 *)
    rewrite alter_id by (intros x; rewrite Hp; now intros [= <-]).
    rewrite alters_eqb. destruct (alters c) eqn:Ha; cbn [negb].
    - exists [OpenRead p; OpenWrite p; Stderr p PermissionError].
      split; [reflexivity | split; [file_events |]]. intros Hs.
      rewrite <- Hp in Hs.
      assert (Hd : differs (fs w) p = true) by (unfold differs; now rewrite Hp).
      truthful_events.
      right. exists (universal_newlines c).
      unfold read_result, write_result. now rewrite Hp.
    - exists [OpenRead p].
      split; [reflexivity | split; [file_events |]]. intros Hs.
      rewrite <- Hp in Hs. truthful_events. }
  8: { (* absent *)
    exists [OpenRead p; Stderr p FileNotFoundError].
    rewrite alter_id' by assumption.
    split; [reflexivity | split; [file_events |]]. intros [? [=]]. }
  (* a directory, a file that is not valid UTF-8, a file that cannot be read *)
  all: rewrite alter_id by (intros x; rewrite Hp; now intros [= <-]).
  all: eexists; split; [reflexivity | split; [file_events |]]; intros Hs.
  all: rewrite <- Hp in Hs; truthful_events.
  all: left; unfold read_result; now rewrite Hp.
Qed.

Lemma write_result_raise m m1 p text x :
  m1 !! p = m !! p ->
  write_result m1 p text = Raise x -> write_result m p text = Raise x.
Proof.
  unfold write_result. intros ->.
  destruct (m !! p) as [[|r [|] d]|]; congruence.
Qed.

(** What the tests on a path say depends on the node at the path only. *)
Lemma truthful_mono m m1 l1 l2 e :
  (forall x, x ∈ l1 -> x ∈ l2 /\ m1 !! x = m !! x) ->
  truthful m1 l1 e -> truthful m l2 e.
Proof.
  intros H.
  destruct e as [p|p|p|[p|p|p|k]|p x]; cbn [truthful]; try exact id;
    try (intros Hin; destruct (H p Hin) as [Hin' _]; exact Hin').
  6: { intros [Hin Hrest]. destruct (H p Hin) as [Hin' Hm].
       split; [exact Hin' |].
       unfold differs, read_result in *. rewrite <- Hm.
       destruct Hrest as [Hr|(c & Hr & Hd & Hw)]; [now left |].
       right. exists c. repeat split; try assumption.
       eapply write_result_raise; [|exact Hw]. now symmetry. }
  all: intros [Hin Hrest]; destruct (H p Hin) as [Hin' Hm];
    unfold differs, changes in *; rewrite Hm in Hrest;
    (split; [exact Hin' | exact Hrest]).
Qed.

(** The loop over a list without repetition, against the file system it
    started from. *)
Lemma for_files_nodup files : forall n w,
  NoDup files ->
  exists m' evs,
    for_files files n w
    = (Ok (n + length (List.filter (changes (fs w)) files)),
       World m' (trace w ++ evs))
    /\ (forall x, x ∈ files -> m' !! x = rewritten <$> fs w !! x)
    /\ (forall x, x ∉ files -> m' !! x = fs w !! x)
    /\ Forall (truthful (fs w) files) evs.
Proof.
  induction files as [|q rest IH]; intros n w Hnd.
  - exists (fs w), []. cbn. rewrite app_nil_r, Nat.add_0_r.
    split; [now destruct w | split; [|split; [reflexivity | constructor]]].
    now intros x ?%elem_of_nil.
  - apply NoDup_cons in Hnd as [Hq Hnd].
    assert (Hhere : forall x, x ∈ [q] -> x ∈ q :: rest /\ fs w !! x = fs w !! x).
    { intros x ->%list_elem_of_singleton. split; [|reflexivity].
      apply elem_of_cons; now left. }
    rewrite for_files_cons. destruct (fs w !! q) as [nd|] eqn:Hnode; cbn [is_some].
    + destruct (process_file_full q (World (fs w) (trace w ++ [Exists q])))
        as (evs1 & -> & _ & Htr).
      cbn [fs trace] in *.
      set (m1 := alter rewritten q (fs w)) in *.
      assert (Hm1 : forall x, x ∈ rest -> x ∈ q :: rest /\ m1 !! x = fs w !! x).
      { intros x Hx. split; [apply elem_of_cons; now right |].
        subst m1. apply lookup_alter_ne. congruence. }
      assert (Hcount : List.filter (changes m1) rest
                       = List.filter (changes (fs w)) rest).
      { apply List.filter_ext_in. intros x Hx%list_elem_of_In.
        unfold changes. now rewrite (proj2 (Hm1 x Hx)). }
      set (b := changes (fs w) q) in *.
      set (l := if b then Fixed q else NoChanges q).
      set (n' := if b then n + 1 else n).
      destruct (IH n' (World m1 (((trace w ++ [Exists q]) ++ evs1) ++ [Stdout l]))
                  Hnd) as (m' & evs & Hrun & Hin & Hout & Hev).
      cbn [fs trace] in *.
      exists m', (Exists q :: evs1 ++ Stdout l :: evs).
      split; [|split; [|split]].
      * transitivity
          (for_files rest n'
             (World m1 (((trace w ++ [Exists q]) ++ evs1) ++ [Stdout l]))).
        { subst l n'. now destruct b. }
        rewrite Hrun, Hcount. cbn [List.filter]. fold b. f_equal.
        -- f_equal. subst n'. destruct b; cbn [length]; lia.
        -- f_equal. rewrite <- !app_assoc. reflexivity.
      * intros x [->|Hx]%elem_of_cons.
        -- rewrite (Hout q Hq). subst m1. apply lookup_alter_eq.
        -- rewrite (Hin x Hx). now rewrite (proj2 (Hm1 x Hx)).
      * intros x [Hne Hx]%not_elem_of_cons.
        rewrite (Hout x Hx). subst m1. now apply lookup_alter_ne.
      * constructor; [apply elem_of_cons; now left |].
        apply Forall_app. split.
        { eapply Forall_impl; [apply Htr; now rewrite Hnode |].
          intros e. now apply truthful_mono. }
        constructor.
        { subst l. destruct b eqn:Hb; cbn [truthful].
          - split; [apply elem_of_cons; now left | exact Hb].
          - split; [apply elem_of_cons; now left |].
            split; [now rewrite Hnode | exact Hb]. }
        eapply Forall_impl; [exact Hev |]. intros e. now apply truthful_mono.
    + assert (Hb : changes (fs w) q = false) by (unfold changes; now rewrite Hnode).
      destruct (IH n (World (fs w) (trace w ++ [Exists q; Stdout (NotFound q)]))
                  Hnd) as (m' & evs & -> & Hin & Hout & Hev).
      cbn [fs trace] in *.
      exists m', (Exists q :: Stdout (NotFound q) :: evs).
      split; [|split; [|split]].
      * cbn [List.filter]. rewrite Hb. now rewrite <- app_assoc.
      * intros x [->|Hx]%elem_of_cons.
        -- rewrite (Hout q Hq). now rewrite Hnode.
        -- now apply Hin.
      * intros x [Hne Hx]%not_elem_of_cons. now apply Hout.
      * constructor; [apply elem_of_cons; now left |].
        constructor; [split; [apply elem_of_cons; now left | exact Hnode] |].
        eapply Forall_impl; [exact Hev |]. intros e.
        apply truthful_mono. intros x Hx. split; [|reflexivity].
        apply elem_of_cons; now right.
Qed.

Lemma run_nodup files w :
  NoDup files ->
  exists m' evs,
    run files w
    = (Ok tt,
       World m'
         (trace w ++ evs
          ++ [Stdout (Summary (length (List.filter (changes (fs w)) files)))]))
    /\ (forall x, x ∈ files -> m' !! x = rewritten <$> fs w !! x)
    /\ (forall x, x ∉ files -> m' !! x = fs w !! x)
    /\ Forall (truthful (fs w) files) evs.
Proof.
  intros Hnd.
  destruct (for_files_nodup files 0 w Hnd) as (m' & evs & Hrun & Hrest).
  exists m', evs. split; [|exact Hrest].
  unfold run, mbind, M_bind, log. rewrite Hrun. cbn [fs trace].
  now rewrite <- app_assoc.
Qed.

(** X1.  [process_file] returns [True] exactly when the path names a file
    that can be read, decoded and written and whose content, as it is read
    with universal newlines, the transformation changes.  Afterwards such a
    file holds the transformed content, which has line feeds only, and every
    other node, at this path or at another, is as it was, its carriage
    returns included. *)
Theorem process_file_outcome (p : string) (w : world) :
  (process_file p w).1 = Ok (changes (fs w) p)
  /\ fs (process_file p w).2 !! p = rewritten <$> fs w !! p
  /\ forall q, q <> p -> fs (process_file p w).2 !! q = fs w !! q.
Proof.
  destruct (process_file_full p w) as (evs & -> & _). cbn [fst snd fs].
  split; [reflexivity | split].
  - apply lookup_alter_eq.
  - intros q Hq. apply lookup_alter_ne. congruence.
Qed.

(** A file with carriage returns: when a rule changes it, it is written
    with line feeds only; when no rule changes it, it is left alone. *)
Lemma process_file_crlf :
  process_file "a.ts" (World crlf_fs [])
  = (Ok true,
     World
       (<["a.ts" := File true true
           (Some ("const u = db.select().from(users);"
                  ++ String "010" "export {};" ++ String "010" ""))]> crlf_fs)
       [OpenRead "a.ts"; OpenWrite "a.ts"])
  /\ process_file "b.ts" (World crlf_fs [])
     = (Ok false, World crlf_fs [OpenRead "b.ts"]).
Proof. split; vm_compute; reflexivity. Qed.

Lemma settled_after m m1 x :
  m1 !! x = rewritten <$> m !! x -> settled m x = true ->
  changes m1 x = false /\ rewritten <$> m1 !! x = m1 !! x.
Proof.
  unfold settled, changes. intros -> Hs.
  destruct (m !! x) as [[|[|] [|] [c|]]|]; cbn in *; try (split; reflexivity).
  apply fix_no_match in Hs.
  destruct (alters c) eqn:Ha; [|cbn [rewritten]; rewrite Ha; now split].
  assert (Hb : alters (fix_drizzle_syntax (universal_newlines c)) = false).
  { unfold alters. rewrite written_read_back, Hs. now rewrite String.eqb_refl. }
  cbn [rewritten]. rewrite Hb. now split.
Qed.

(** X2.  When the content that one call writes is matched by none of the
    patterns, a second call of [process_file] on the same path returns
    [False] and leaves the file system as the first call left it. *)
Theorem process_file_again (p : string) (w : world) :
  settled (fs w) p = true ->
  let w1 := (process_file p w).2 in
  (process_file p w1).1 = Ok false /\ fs (process_file p w1).2 = fs w1.
Proof.
  intros Hs w1.
  assert (Hp : fs w1 !! p = rewritten <$> fs w !! p).
  { subst w1. destruct (process_file_full p w) as (evs & -> & _).
    apply lookup_alter_eq. }
  destruct (settled_after _ _ _ Hp Hs) as [Hc Hr].
  destruct (process_file_full p w1) as (evs & -> & _). cbn [fst snd fs].
  rewrite Hc. split; [reflexivity |].
  apply alter_id. intros n Hn. rewrite Hn in Hr. now injection Hr.
Qed.

Lemma process_file_again_witness :
  let w1 := (process_file "src/routes/upload.ts" sample_world).2 in
  (process_file "src/routes/upload.ts" w1).1 = Ok false
  /\ fs (process_file "src/routes/upload.ts" w1).2 = fs w1.
Proof.
  apply (process_file_again "src/routes/upload.ts" sample_world).
  vm_compute. reflexivity.
Defined.

Lemma filter_none {A} (f : A -> bool) (l : list A) :
  (forall x, x ∈ l -> f x = false) -> List.filter f l = [].
Proof.
  induction l as [|a l IH]; intros H; [reflexivity |].
  cbn. rewrite (H a) by (apply elem_of_cons; now left).
  apply IH. intros x Hx. apply H. apply elem_of_cons; now right.
Qed.

(** X3.  After a run over a list without repetition, every listed file that
    can be read, decoded and written, and whose content as read with
    universal newlines the transformation changes, holds the transformed
    content; every other listed path and every path that is not listed is as
    it was.  No file is created and none is removed. *)
Theorem run_final_fs (files : list string) (w : world) :
  NoDup files ->
  let w' := (run files w).2 in
  (forall p, p ∈ files -> fs w' !! p = rewritten <$> fs w !! p)
  /\ (forall p, p ∉ files -> fs w' !! p = fs w !! p)
  /\ (forall p, is_Some (fs w' !! p) <-> is_Some (fs w !! p)).
Proof.
  intros Hnd. destruct (run_nodup files w Hnd) as (m' & evs & -> & Hin & Hout & _).
  cbn [snd fs]. split; [exact Hin | split; [exact Hout |]].
  intros p. destruct (decide (p ∈ files)) as [Hp|Hp].
  - rewrite (Hin p Hp). apply fmap_is_Some.
  - now rewrite (Hout p Hp).
Qed.

Lemma files_to_process_nodup : NoDup files_to_process.
Proof. apply (bool_decide_unpack _). vm_compute. exact I. Qed.

Lemma run_final_fs_witness :
  let w' := (main sample_world).2 in
  (forall p, p ∈ files_to_process ->
             fs w' !! p = rewritten <$> fs sample_world !! p)
  /\ (forall p, p ∉ files_to_process -> fs w' !! p = fs sample_world !! p)
  /\ (forall p, is_Some (fs w' !! p) <-> is_Some (fs sample_world !! p)).
Proof.
  apply (run_final_fs files_to_process sample_world).
  exact files_to_process_nodup.
Defined.

(** X4.  After a run over a list without repetition, the total printed last
    is the number of listed files that can be read, decoded and written and
    whose content the transformation changes. *)
Theorem run_total (files : list string) (w : world) :
  NoDup files ->
  last (new_events w (run files w).2)
  = Some (Stdout (Summary (length (List.filter (changes (fs w)) files)))).
Proof.
  intros Hnd. destruct (run_nodup files w Hnd) as (m' & evs & -> & _).
  cbn [snd]. rewrite new_events_app. apply last_snoc.
Qed.

Lemma run_total_witness :
  last (new_events sample_world (main sample_world).2)
  = Some (Stdout (Summary 1)).
Proof.
  apply (run_total files_to_process sample_world).
  exact files_to_process_nodup.
Defined.

(** X5.  In a run over a list without repetition every operation and every
    line is about a listed path and says the truth about the file system
    the run started from: [Fixed] stands for a file that could be read and
    written and was changed, [No changes] for a path that exists and was
    not changed, [Not found] for an absent path; a file is opened only if
    the path exists, and for writing only if its content differs; an error
    line repeats what the read or the write raised. *)
Theorem run_truthful (files : list string) (w : world) :
  NoDup files ->
  Forall (truthful (fs w) files) (new_events w (run files w).2).
Proof.
  intros Hnd. destruct (run_nodup files w Hnd) as (m' & evs & -> & _ & _ & Hev).
  cbn [snd]. rewrite new_events_app.
  apply Forall_app. split; [exact Hev |]. now repeat constructor.
Qed.

Lemma run_truthful_witness :
  Forall (truthful (fs sample_world) files_to_process)
    (new_events sample_world (main sample_world).2).
Proof.
  apply (run_truthful files_to_process sample_world).
  exact files_to_process_nodup.
Defined.

(** X6.  Running the driver again is safe: when the content written for
    every listed file is matched by none of the patterns, a second run over
    the same list changes nothing in the file system and prints the total
    0. *)
Theorem run_again (files : list string) (w : world) :
  NoDup files ->
  forallb (settled (fs w)) files = true ->
  let w1 := (run files w).2 in
  fs (run files w1).2 = fs w1
  /\ last (new_events w1 (run files w1).2) = Some (Stdout (Summary 0)).
Proof.
  intros Hnd Hs w1.
  assert (Hin : forall x, x ∈ files -> fs w1 !! x = rewritten <$> fs w !! x).
  { subst w1. now destruct (run_nodup files w Hnd) as (m' & evs & -> & Hin & _). }
  assert (Hset : forall x, x ∈ files ->
            changes (fs w1) x = false /\ rewritten <$> fs w1 !! x = fs w1 !! x).
  { intros x Hx. apply (settled_after (fs w)); [now apply Hin |].
    rewrite forallb_forall in Hs. now apply Hs, list_elem_of_In. }
  destruct (run_nodup files w1 Hnd) as (m2 & evs & -> & Hin2 & Hout2 & _).
  cbn [snd fs]. rewrite new_events_app. split.
  - apply map_eq. intros x. destruct (decide (x ∈ files)) as [Hx|Hx].
    + rewrite (Hin2 x Hx). now apply Hset.
    + now apply Hout2.
  - rewrite filter_none by (intros x Hx; now apply Hset). apply last_snoc.
Qed.

Lemma run_again_witness :
  let w1 := (main sample_world).2 in
  fs (main w1).2 = fs w1
  /\ last (new_events w1 (main w1).2) = Some (Stdout (Summary 0)).
Proof.
  apply (run_again files_to_process sample_world).
  - exact files_to_process_nodup.
  - vm_compute. reflexivity.
Defined.

(** ** The driver in an environment *)

(** Where the environment refuses nothing, the driver in it is [run]. *)
Lemma for_files_in_calm E files :
  stdout_encodes E = true -> (forall p, p ∈ files -> p ∉ stat_refused E) ->
  forall n w, for_files_in E files n w = for_files files n w.
Proof.
  intros Hout. induction files as [|q rest IH]; intros Hstat n w; [reflexivity |].
  assert (Hq : bool_decide (q ∈ stat_refused E) = false).
  { apply bool_decide_eq_false_2, Hstat, elem_of_cons. now left. }
  assert (IH' : forall n w, for_files_in E rest n w = for_files rest n w).
  { apply IH. intros p Hp. apply Hstat, elem_of_cons. now right. }
  cbn [for_files_in for_files].
  unfold path_exists_in, path_exists, print_in. rewrite Hout, Hq.
  unfold log, get_fs, mbind, M_bind, mret, M_ret. cbn [fs trace].
  destruct (fs w !! q); cbn [is_some].
  - destruct (process_file q _) as [[[|]|e] w1]; [apply IH' | apply IH' | reflexivity].
  - apply IH'.
Qed.

Lemma run_in_calm E files w :
  stdout_encodes E = true -> (forall p, p ∈ files -> p ∉ stat_refused E) ->
  run_in E files w = run files w.
Proof.
  intros Hout Hstat. unfold run_in, run, mbind, M_bind.
  rewrite for_files_in_calm by assumption.
  destruct (for_files files 0 w) as [[n|e] w1]; [|reflexivity].
  unfold print_in. now rewrite Hout.
Qed.

Lemma write_result_same_paths m p text m' :
  is_Some (m !! p) -> write_result m p text = Ok m' ->
  forall a, is_some (m' !! a) = is_some (m !! a).
Proof.
  intros [nd Hp] Hw a. unfold write_result in Hw. rewrite Hp in Hw.
  destruct nd as [|r [|] d]; try discriminate. injection Hw as <-.
  destruct (decide (p = a)) as [<-|Hne].
  - now rewrite lookup_insert_eq, Hp.
  - now rewrite lookup_insert_ne.
Qed.

(** [process_file] opens its path for reading, once, and neither creates
    nor removes a file. *)
Lemma process_file_opened p w :
  exists b m' evs,
    process_file p w = (Ok b, World m' (trace w ++ evs))
    /\ opened evs = [p]
    /\ forall a, is_some (m' !! a) = is_some (fs w !! a).
Proof.
  rewrite process_file_eq.
  destruct (read_result (fs w) p) as [c|e] eqn:Hr.
  - destruct (String.eqb c (fix_drizzle_syntax c)).
    + now exists false, (fs w), [OpenRead p].
    + destruct (write_result (fs w) p (fix_drizzle_syntax c)) as [m'|e] eqn:Hw.
      * exists true, m', [OpenRead p; OpenWrite p].
        split; [reflexivity | split; [reflexivity |]].
        eapply write_result_same_paths; [|eassumption].
        eapply read_result_exists; eassumption.
      * now exists false, (fs w), [OpenRead p; OpenWrite p; Stderr p e].
  - now exists false, (fs w), [OpenRead p; Stderr p e].
Qed.

(** The loop hands every path that exists to [process_file], in list
    order, and no other. *)
Lemma for_files_opened files : forall n w,
  exists k m' evs,
    for_files files n w = (Ok k, World m' (trace w ++ evs))
    /\ opened evs = List.filter (fun p => is_some (fs w !! p)) files.
Proof.
  induction files as [|q rest IH]; intros n w.
  - exists n, (fs w), []. cbn. rewrite app_nil_r. now destruct w.
  - rewrite for_files_cons. cbn [List.filter].
    destruct (is_some (fs w !! q)) eqn:Hq.
    + destruct (process_file_opened q (World (fs w) (trace w ++ [Exists q])))
        as (b & m1 & evs1 & -> & Hop & Hsame).
      cbn [fs trace] in *.
      set (l := if b then Fixed q else NoChanges q).
      set (n' := if b then n + 1 else n).
      destruct (IH n' (World m1 (((trace w ++ [Exists q]) ++ evs1) ++ [Stdout l])))
        as (k & m' & evs & Hrun & Hev).
      cbn [fs trace] in *.
      exists k, m', (Exists q :: evs1 ++ Stdout l :: evs).
      split.
      * transitivity
          (for_files rest n'
             (World m1 (((trace w ++ [Exists q]) ++ evs1) ++ [Stdout l]))).
        { subst l n'. now destruct b. }
        rewrite Hrun. do 2 f_equal. rewrite <- !app_assoc. reflexivity.
      * unfold opened in *. cbn. rewrite omap_app, Hop. cbn.
        replace (omap read_path evs)
          with (List.filter (fun p => is_some (m1 !! p)) rest)
          by (subst l; now destruct b).
        f_equal. apply List.filter_ext. intros a. apply Hsame.
    + destruct (IH n (World (fs w) (trace w ++ [Exists q; Stdout (NotFound q)])))
        as (k & m' & evs & -> & Hev).
      cbn [fs trace] in *.
      exists k, m', (Exists q :: Stdout (NotFound q) :: evs).
      split; [now rewrite <- app_assoc | exact Hev].
Qed.

Lemma opened_summary evs n :
  opened (evs ++ [Stdout (Summary n)])%list = opened evs.
Proof. unfold opened. now rewrite omap_summary. Qed.

(** C9, as stated, fails.  On a standard output that cannot encode the
    status lines, the first [print] raises after the first file has been
    processed; where [exists()] is refused on the second path, it raises
    there.  In both runs the exception leaves [main], the exit status is 1,
    and the later paths of the list, among them a file the rules would
    change, are neither tested nor opened nor reported. *)
Lemma main_in_aborts :
  main_in plain_stdout sample_world
  = (Raise UnicodeEncodeError,
     World sample_fs
       [Exists "src/middleware/tenant.ts"; OpenRead "src/middleware/tenant.ts";
        OpenWrite "src/middleware/tenant.ts";
        Stderr "src/middleware/tenant.ts" PermissionError])
  /\ exit_status (main_in plain_stdout sample_world).1 = 1
  /\ main_in closed_directory sample_world
     = (Raise PermissionError,
        World sample_fs
          [Exists "src/middleware/tenant.ts"; OpenRead "src/middleware/tenant.ts";
           OpenWrite "src/middleware/tenant.ts";
           Stderr "src/middleware/tenant.ts" PermissionError;
           Stdout (NoChanges "src/middleware/tenant.ts");
           Exists "src/routes/consulting.ts"])
  /\ exit_status (main_in closed_directory sample_world).1 = 1
  /\ List.filter (changes sample_fs) files_to_process = ["src/routes/upload.ts"].
Proof. repeat split; vm_compute; reflexivity. Qed.

(** C9, amended.  Where standard output can encode the lines and
    [exists()] is refused on no path of the list, the driver returns
    normally, so the exit status is 0, whatever the reads and the writes
    raise: every path of the list is tested, in list order; every path that
    exists is handed to [process_file], in list order; every path gets its
    status line, in list order; the total comes last; and over a list
    without repetition every file is left as [process_file] alone leaves
    it. *)
Theorem run_in_completes (E : env) (files : list string) (w : world) :
  stdout_encodes E = true -> (forall p, p ∈ files -> p ∉ stat_refused E) ->
  let w' := (run_in E files w).2 in
  let evs := new_events w w' in
  (run_in E files w).1 = Ok tt
  /\ exit_status (run_in E files w).1 = 0
  /\ exists_paths evs = files
  /\ opened evs = List.filter (fun p => is_some (fs w !! p)) files
  /\ reported evs = files
  /\ last evs = Some (Stdout (Summary (fixed_lines evs)))
  /\ (NoDup files ->
      forall p, p ∈ files -> fs w' !! p = rewritten <$> fs w !! p).
Proof.
  intros Hout Hstat. rewrite run_in_calm by assumption.
  destruct (run_eq files w) as (m' & evs & Hrun & E1 & E2 & _).
  assert (Hop : opened evs = List.filter (fun p => is_some (fs w !! p)) files).
  { destruct (for_files_opened files 0 w) as (k & m2 & evs2 & Hfor & Hop).
    unfold run, mbind, M_bind in Hrun. rewrite Hfor in Hrun.
    unfold log in Hrun. cbn [fs trace] in Hrun.
    injection Hrun as _ Htr. rewrite <- app_assoc in Htr.
    apply app_inv_head in Htr. apply app_inj_tail in Htr as [-> _]. exact Hop. }
  rewrite Hrun. cbn [fst snd fs]. rewrite new_events_app.
  rewrite exists_paths_summary, opened_summary, reported_summary,
    fixed_lines_summary, last_snoc.
  repeat split; try assumption.
  intros Hnd p Hp.
  destruct (run_nodup files w Hnd) as (m2 & evs2 & Hrun2 & Hin & _).
  rewrite Hrun in Hrun2. injection Hrun2 as -> _. now apply Hin.
Qed.

Lemma run_in_completes_witness :
  let w' := (main_in calm sample_world).2 in
  let evs := new_events sample_world w' in
  (main_in calm sample_world).1 = Ok tt
  /\ exit_status (main_in calm sample_world).1 = 0
  /\ exists_paths evs = files_to_process
  /\ opened evs
     = List.filter (fun p => is_some (fs sample_world !! p)) files_to_process
  /\ reported evs = files_to_process
  /\ last evs = Some (Stdout (Summary (fixed_lines evs)))
  /\ (NoDup files_to_process ->
      forall p, p ∈ files_to_process ->
        fs w' !! p = rewritten <$> fs sample_world !! p).
Proof.
  apply (run_in_completes calm files_to_process sample_world).
  - reflexivity.
  - intros p _. apply not_elem_of_empty.
Defined.

(** ** Rewriting inside a larger text *)

Lemma compatible_cons (a : ascii) (p : string) (b : ascii) (s : string) :
  compatible (String a p) (String b s) = Ascii.eqb a b && compatible p s.
Proof. reflexivity. Qed.

Lemma opens_cons (p : string) (c : ascii) (s : string) :
  opens p (String c s) = compatible p (String c s) || opens p s.
Proof. reflexivity. Qed.

(** A text that cannot be continued to start with [p] does not start with
    [p], whatever follows it. *)
Lemma incompatible_strip p s t :
  compatible p s = false -> strip_prefix p (s ++ t) = None.
Proof.
  revert s. induction p as [|a p IH]; intros s H; [discriminate |].
  destruct s as [|b s]; [discriminate |].
  rewrite append_cons, strip_prefix_cons. rewrite compatible_cons in H.
  destruct (Ascii.eqb a b); [now apply IH | reflexivity].
Qed.

Lemma sub_step_no_match r repl c s :
  match_here r (String c s) = None ->
  re_sub r repl (String c s) = String c (re_sub r repl s).
Proof. unfold re_sub. cbn [sub_from]. now intros ->. Qed.

(** Text in which no occurrence of the literal start of the pattern opens is
    copied, and the rest is rewritten as if it stood alone. *)
Lemma sub_frame p r repl pre s :
  opens p pre = false ->
  re_sub (Lit p >> r) repl (pre ++ s) = pre ++ re_sub (Lit p >> r) repl s.
Proof.
  induction pre as [|c pre IH]; intros H; [reflexivity |].
  rewrite opens_cons in H. apply orb_false_iff in H as [Hc Ho].
  rewrite !append_cons, sub_step_no_match; [now rewrite IH |].
  unfold match_here. cbn [exec].
  now rewrite <- append_cons, incompatible_strip.
Qed.

Lemma sub_from_skip r repl a b :
  sub_from r repl (a ++ b) (String.length a) = sub_from r repl b 0.
Proof.
  induction a as [|c a IH]; [reflexivity |].
  rewrite append_cons. exact IH.
Qed.

(** A match at the start of the subject is replaced, and the scan goes on
    after it. *)
Lemma sub_match_first r repl a b g :
  a <> "" -> match_here r (a ++ b) = Some (b, g) ->
  re_sub r repl (a ++ b) = repl g ++ re_sub r repl b.
Proof.
  intros Hne Hm. unfold re_sub. destruct a as [|c a]; [congruence |].
  rewrite append_cons in *. cbn [sub_from]. rewrite Hm.
  cbn [String.length]. rewrite length_append.
  replace (S (String.length a + String.length b) - String.length b)
    with (S (String.length a)) by lia.
  now rewrite sub_from_skip.
Qed.

(** Text in which no occurrence of [db.query.] starts is copied by all five
    rules. *)
Lemma fix_after_plain (pre s : string) :
  opens "db.query." pre = false ->
  fix_drizzle_syntax (pre ++ s) = pre ++ fix_drizzle_syntax s.
Proof.
  intros H. unfold fix_drizzle_syntax.
  unfold pattern1, pattern2, pattern3, pattern4, pattern5.
  now rewrite !sub_frame.
Qed.

(** X7.  Text before a call is copied and has no influence on how the rest
    is rewritten: when no occurrence of [db.query.] starts inside [pre],
    not even one that the rest would complete, the transformation of
    [pre ++ s] is [pre] followed by the transformation of [s]. *)
Theorem fix_frame (pre s : string) :
  opens "db.query." pre = false ->
  fix_drizzle_syntax (pre ++ s) = pre ++ fix_drizzle_syntax s.
Proof. exact (fix_after_plain pre s). Qed.

Lemma fix_frame_witness :
  fix_drizzle_syntax ("const rows = await " ++ "db.query.users.findMany();")
  = "const rows = await " ++ fix_drizzle_syntax "db.query.users.findMany();".
Proof.
  apply (fix_frame "const rows = await " "db.query.users.findMany();").
  reflexivity.
Defined.

Lemma incompatible_append p s t :
  compatible p s = false -> compatible p (s ++ t) = false.
Proof.
  revert s. induction p as [|a p IH]; intros s H; [discriminate |].
  destruct s as [|b s]; [discriminate |].
  rewrite append_cons, compatible_cons in *.
  destruct (Ascii.eqb a b); [now apply IH | reflexivity].
Qed.

Lemma opens_append p a b : opens p a = false -> opens p (a ++ b) = opens p b.
Proof.
  induction a as [|c a IH]; intros H; [reflexivity |].
  rewrite opens_cons in H. apply orb_false_iff in H as [Hc Ho].
  rewrite append_cons, opens_cons, IH by assumption.
  now rewrite <- append_cons, incompatible_append.
Qed.

(** Before a character that is foreign to [p], a text is compatible with [p]
    only if it starts with [p]. *)
Lemma compatible_foreign p s e t :
  mem_ascii e (ch p) = false ->
  compatible p (s ++ String e t) = is_some (strip_prefix p s).
Proof.
  revert s. induction p as [|a p IH]; intros s He; [reflexivity |].
  cbn in He. apply orb_false_iff in He as [Ha He].
  destruct s as [|b s].
  - rewrite append_nil_l, compatible_cons, Ascii.eqb_sym, Ha. reflexivity.
  - rewrite append_cons, compatible_cons, strip_prefix_cons.
    destruct (Ascii.eqb a b); [now apply IH | reflexivity].
Qed.

Lemma opens_foreign_tail p s e t :
  contains p s = false -> mem_ascii e (ch p) = false ->
  opens p (s ++ String e t) = opens p (String e t).
Proof.
  intros Hs He. induction s as [|c s IH]; [reflexivity |].
  rewrite contains_cons in Hs. apply orb_false_iff in Hs as [Hc Hs].
  rewrite append_cons, opens_cons, IH by assumption.
  now rewrite <- append_cons, compatible_foreign, Hc.
Qed.

(** A run of word characters opens no occurrence of [db.query.], unless
    what follows completes one. *)
Lemma opens_word_run x r :
  all_chars is_word x = true ->
  compatible "b.query." r = false -> compatible ".query." r = false ->
  opens "db.query." (x ++ r) = opens "db.query." r.
Proof.
  intros Hx H1 H2. induction x as [|c x IH]; [reflexivity |].
  cbn [all_chars] in Hx. apply andb_true_iff in Hx as [Hc Hx].
  rewrite append_cons, opens_cons, IH by assumption.
  replace (compatible "db.query." (String c (x ++ r))) with false;
    [reflexivity |].
  rewrite compatible_cons. destruct (Ascii.eqb "d" c); [|reflexivity].
  destruct x as [|c2 x]; [now rewrite append_nil_l, H1 |].
  rewrite append_cons, compatible_cons.
  destruct (Ascii.eqb "b" c2); [|reflexivity].
  destruct x as [|c3 x]; [now rewrite append_nil_l, H2 |].
  rewrite append_cons, compatible_cons.
  destruct (Ascii.eqb_spec "." c3) as [<-|]; [|reflexivity].
  cbn [all_chars] in Hx. apply andb_true_iff in Hx as [_ Hx].
  apply andb_true_iff in Hx as [Hx _]. discriminate.
Qed.

(** A rule whose pattern asks, after the table, for other text than
    [.findMany()] leaves a bare [findMany] call alone and goes on after
    it. *)
Lemma rule_skips_bare q r2 repl X t :
  all_chars is_word X = true ->
  (forall t', strip_prefix (String "." q) (".findMany()" ++ t') = None) ->
  re_sub (Lit "db.query." >> Group 1 (Many1 Word) >> Lit (String "." q) >> r2)
    repl (findMany_bare X ++ t)
  = findMany_bare X
    ++ re_sub (Lit "db.query." >> Group 1 (Many1 Word) >> Lit (String "." q) >> r2)
         repl t.
Proof.
  intros HX Hq. unfold findMany_bare. rewrite !append_assoc.
  rewrite (append_cons "d" "b.query."), sub_step_no_match.
  - rewrite <- (append_assoc X), <- (append_assoc "b.query.").
    rewrite sub_frame; [now rewrite !append_assoc |].
    rewrite !append_cons, !append_nil_l. simpl.
    rewrite opens_word_run by (assumption || reflexivity). reflexivity.
  - rewrite <- append_cons. unfold match_here. rewrite exec_lit_eq.
    rewrite exec_group_many1_fail; [reflexivity | assumption | reflexivity |].
    intros a' g' Ha'.
    apply (exec_lit_after_run_fail Word); [reflexivity | assumption | apply Hq].
Qed.

Section ExecMore.
Context {R : Type}.
Implicit Types (cont : string -> groups -> option R).

Lemma exec_lit_end p s g cont : exec (Lit p) (p ++ s) g cont = cont s g.
Proof. simpl. now rewrite strip_prefix_append. Qed.
End ExecMore.

Lemma pattern5_matches_bare X t :
  nonempty X = true -> all_chars is_word X = true ->
  match_here pattern5 (findMany_bare X ++ t)
  = Some (t, <[1 := Some X]> no_groups).
Proof.
  intros HX%nonempty_ne HXw. unfold match_here, pattern5, findMany_bare.
  rewrite !append_assoc, exec_lit_eq.
  apply exec_group_many1; [assumption | assumption | reflexivity |].
  now rewrite exec_lit_end.
Qed.

(** The fifth rule at a bare call, inside a larger text. *)
Lemma fix_at_bare (X post : string) :
  nonempty X = true -> all_chars is_word X = true ->
  fix_drizzle_syntax (findMany_bare X ++ post)
  = "db.select().from(" ++ X ++ ")" ++ fix_drizzle_syntax post.
Proof.
  intros HX HXw. unfold fix_drizzle_syntax.
  unfold pattern1 at 1, pattern2 at 1, pattern3 at 1, pattern4 at 1.
  rewrite !rule_skips_bare by (assumption || reflexivity).
  fold pattern1 pattern2 pattern3 pattern4.
  rewrite (sub_match_first pattern5 _ _ _ (<[1 := Some X]> no_groups));
    [ | discriminate | now apply pattern5_matches_bare ].
  set (rest := re_sub pattern5 _ _).
  change (expand replacement5 (<[1 := Some X]> no_groups))
    with ("db.select().from(" ++ X ++ ")" ++ "").
  now rewrite append_nil_r, !append_assoc.
Qed.

(** X8.  A bare [findMany] call on a table [X] of word characters is
    rewritten to [db.select().from(X)] wherever it starts a text, and what
    follows the call is transformed as if it stood alone. *)
Theorem fix_findMany_bare (X post : string) :
  nonempty X = true -> all_chars is_word X = true ->
  fix_drizzle_syntax (findMany_bare X ++ post)
  = "db.select().from(" ++ X ++ ")" ++ fix_drizzle_syntax post.
Proof. exact (fix_at_bare X post). Qed.

Lemma fix_findMany_bare_witness :
  fix_drizzle_syntax (findMany_bare "users" ++ ".then(db.query.posts.findMany())")
  = "db.select().from(" ++ "users" ++ ")"
    ++ fix_drizzle_syntax ".then(db.query.posts.findMany())".
Proof.
  apply (fix_findMany_bare "users" ".then(db.query.posts.findMany())");
    reflexivity.
Defined.

(** The first pattern matches a [findFirst] call whose condition has no
    closing brace; the condition runs up to the closing brace. *)
Lemma pattern1_matches_call X ws1 ws2 C t :
  nonempty X = true -> all_chars is_word X = true ->
  all_chars is_space ws1 = true -> all_chars is_space ws2 = true ->
  nonempty C = true -> all_chars (cls_ok (NoneOf (ch "}"))) C = true ->
  stops Space C = true ->
  match_here pattern1 (findFirst_call X ws1 ws2 C ++ t)
  = Some (t, <[2 := Some C]> (<[1 := Some X]> no_groups)).
Proof.
  intros HX%nonempty_ne HXw Hw1 Hw2 HC%nonempty_ne HCc HCs.
  unfold match_here, pattern1, findFirst_call.
  rewrite !append_assoc, exec_lit_eq.
  apply exec_group_many1; [assumption | assumption | reflexivity |].
  rewrite exec_lit_eq.
  apply exec_many; [assumption | reflexivity |].
  rewrite exec_lit_eq.
  apply exec_many; [assumption | now apply stops_append |].
  apply exec_group_many1; [assumption | assumption | reflexivity |].
  change ("})" ++ t) with ("" ++ "})" ++ t).
  apply exec_many; [reflexivity | reflexivity |].
  now rewrite exec_lit_end.
Qed.

(** No occurrence of [db.query.] opens in what the rules for a call with a
    condition write, up to the parenthesis that closes [where(...)]. *)
Lemma select_where_closed X C e t :
  all_chars is_word X = true -> contains "db.query." C = false ->
  mem_ascii e (ch "db.query.") = false ->
  opens "db.query." ("db.select().from(" ++ X ++ ").where(" ++ C ++ String e t)
  = opens "db.query." (String e t).
Proof.
  intros HX HC He. rewrite !append_cons, !append_nil_l. simpl.
  rewrite opens_word_run by (assumption || reflexivity). simpl.
  now apply opens_foreign_tail.
Qed.

(** The first rule at a [findFirst] call, inside a larger text. *)
Lemma fix_at_findFirst (X ws1 ws2 C post : string) :
  nonempty X = true -> all_chars is_word X = true ->
  all_chars is_space ws1 = true -> all_chars is_space ws2 = true ->
  nonempty C = true -> all_chars (cls_ok (NoneOf (ch "}"))) C = true ->
  stops Space C = true -> contains "db.query." C = false ->
  fix_drizzle_syntax (findFirst_call X ws1 ws2 C ++ post)
  = "db.select().from(" ++ X ++ ").where(" ++ C ++ ").limit(1)"
    ++ fix_drizzle_syntax post.
Proof.
  intros HX HXw Hw1 Hw2 HC HCc HCs Hq. unfold fix_drizzle_syntax.
  rewrite (sub_match_first pattern1 _ _ _ (<[2 := Some C]> (<[1 := Some X]> no_groups)));
    [ | discriminate | now apply pattern1_matches_call ].
  change (expand replacement1 (<[2 := Some C]> (<[1 := Some X]> no_groups)))
    with ("db.select().from(" ++ X ++ ").where(" ++ C ++ ").limit(1)").
  assert (Hout : opens "db.query."
                   ("db.select().from(" ++ X ++ ").where(" ++ C ++ ").limit(1)")
                 = false).
  { now rewrite (select_where_closed X C ")" ".limit(1)"). }
  unfold pattern2 at 1, pattern3 at 1, pattern4 at 1, pattern5 at 1.
  rewrite !sub_frame by assumption. now rewrite !append_assoc.
Qed.

(** X9.  A [findFirst] call on a table [X] of word characters, with any
    white space after the opening brace and after [where:], and with a
    condition [C] that has no closing brace, does not start with white
    space and does not contain [db.query.], is rewritten to
    [db.select().from(X).where(C).limit(1)].  The condition is all the text
    up to the closing brace, commas and white space before the brace
    included.  What follows the call is transformed as if it stood
    alone. *)
Theorem fix_findFirst (X ws1 ws2 C post : string) :
  nonempty X = true -> all_chars is_word X = true ->
  all_chars is_space ws1 = true -> all_chars is_space ws2 = true ->
  nonempty C = true -> all_chars (cls_ok (NoneOf (ch "}"))) C = true ->
  stops Space C = true -> contains "db.query." C = false ->
  fix_drizzle_syntax (findFirst_call X ws1 ws2 C ++ post)
  = "db.select().from(" ++ X ++ ").where(" ++ C ++ ").limit(1)"
    ++ fix_drizzle_syntax post.
Proof. exact (fix_at_findFirst X ws1 ws2 C post). Qed.

Lemma fix_findFirst_witness :
  fix_drizzle_syntax
    (findFirst_call "users" " " " " "and(eq(id, 1), isNull(gone)) " ++ ";")
  = "db.select().from(" ++ "users" ++ ").where("
    ++ "and(eq(id, 1), isNull(gone)) " ++ ").limit(1)"
    ++ fix_drizzle_syntax ";".
Proof.
  apply (fix_findFirst "users" " " " " "and(eq(id, 1), isNull(gone)) " ";");
    reflexivity.
Defined.

(** ** Where a match can end *)

Lemma not_brace_ok c : cls_ok (NoneOf (ch "}")) c = false -> c = "}"%char.
Proof.
  cbn. rewrite orb_false_r. intros H%negb_false_iff. now apply Ascii.eqb_eq.
Qed.

Lemma all_chars_impl (f g : ascii -> bool) s :
  (forall c, f c = true -> g c = true) ->
  all_chars f s = true -> all_chars g s = true.
Proof.
  intros H. induction s as [|c s IH]; [trivial |]. cbn [all_chars].
  intros [Hc Hs]%andb_true_iff. now rewrite (H c Hc), IH.
Qed.

(** Literal text without closing brace, found at the start of a run without
    closing brace that ends at a brace or at the end of the subject, lies
    inside the run. *)
Lemma strip_prefix_in_run p z r s' :
  all_chars (cls_ok (NoneOf (ch "}"))) p = true ->
  all_chars (cls_ok (NoneOf (ch "}"))) z = true ->
  (r = "" \/ exists t, r = String "}" t) ->
  strip_prefix p (z ++ r) = Some s' ->
  exists z', s' = z' ++ r /\ all_chars (cls_ok (NoneOf (ch "}"))) z' = true.
Proof.
  revert z. induction p as [|a p IH]; intros z Hp Hz Hr H.
  - injection H as <-. now exists z.
  - cbn [all_chars] in Hp. apply andb_true_iff in Hp as [Ha Hp].
    destruct z as [|b z].
    + rewrite append_nil_l in H. destruct Hr as [->|[t ->]]; [discriminate |].
      rewrite strip_prefix_cons in H.
      destruct (Ascii.eqb_spec a "}") as [->|]; discriminate.
    + rewrite append_cons, strip_prefix_cons in H.
      cbn [all_chars] in Hz. apply andb_true_iff in Hz as [_ Hz].
      destruct (Ascii.eqb a b); [now apply (IH z) | discriminate].
Qed.

Section BeforeBrace.
Context {R : Type} (Q : option R -> Prop) (r0 : string).
Hypothesis Q_None : Q None.
Hypothesis r0_brace : r0 = "" \/ exists t, r0 = String "}" t.

Let in_run (z : string) : Prop :=
  all_chars (cls_ok (NoneOf (ch "}"))) z = true.

Lemma many_before_brace k (cont : string -> option R) :
  cls_ok k "}" = false ->
  (forall z, in_run z -> Q (cont (z ++ r0))) ->
  forall z, in_run z -> Q (many k (z ++ r0) cont).
Proof.
  intros Hk Hc z Hz. induction z as [|c z IH].
  - rewrite append_nil_l.
    destruct r0_brace as [E|[t E]]; rewrite E.
    + cbn. rewrite <- E. now apply (Hc "").
    + cbn [many]. rewrite Hk. rewrite <- E. now apply (Hc "").
  - rewrite append_cons. cbn [many].
    pose proof Hz as Hz0. unfold in_run in Hz. cbn [all_chars] in Hz.
    apply andb_true_iff in Hz as [_ Hz].
    destruct (cls_ok k c).
    + specialize (IH Hz). destruct (many k (z ++ r0) cont); [exact IH |].
      rewrite <- append_cons. now apply Hc.
    + rewrite <- append_cons. now apply Hc.
Qed.

(** A pattern that cannot match a closing brace hands over to what comes
    after it before the first closing brace of the subject, if at all. *)
Lemma exec_before_brace r :
  brace_free r = true ->
  forall cont : string -> groups -> option R,
    (forall z g, in_run z -> Q (cont (z ++ r0) g)) ->
    forall z g, in_run z -> Q (exec r (z ++ r0) g cont).
Proof.
  induction r as [p|k|k|n r IH|r IH|r1 IH1 r2 IH2]; cbn [brace_free exec];
    intros Hr cont Hc z g Hz.
  - destruct (strip_prefix p (z ++ r0)) as [s'|] eqn:E; [|exact Q_None].
    destruct (strip_prefix_in_run _ _ _ _ Hr Hz r0_brace E) as (z' & -> & Hz').
    now apply Hc.
  - apply many_before_brace; [now apply negb_true_iff | | assumption].
    intros z' Hz'. now apply Hc.
  - apply negb_true_iff in Hr.
    destruct z as [|c z].
    + rewrite append_nil_l. destruct r0_brace as [E|[t E]]; rewrite E; cbn.
      * exact Q_None.
      * rewrite Hr. exact Q_None.
    + rewrite append_cons. cbn [many1].
      destruct (cls_ok k c); [|exact Q_None].
      unfold in_run in Hz. cbn [all_chars] in Hz.
      apply andb_true_iff in Hz as [_ Hz].
      apply many_before_brace; [assumption | | assumption].
      intros z' Hz'. now apply Hc.
  - apply IH; [assumption | | assumption].
    intros z' g' Hz'. now apply Hc.
  - pose proof (IH Hr cont Hc z g Hz) as H.
    destruct (exec r (z ++ r0) g cont); [exact H | now apply Hc].
  - apply andb_true_iff in Hr as [Hr1 Hr2].
    apply IH1; [assumption | | assumption].
    intros z' g' Hz'. now apply IH2.
Qed.

Lemma exec_cat_before_brace r1 r2 (cont : string -> groups -> option R) :
  brace_free r1 = true ->
  (forall z g, in_run z -> Q (exec r2 (z ++ r0) g cont)) ->
  forall z g, in_run z -> Q (exec (r1 >> r2) (z ++ r0) g cont).
Proof. intros H1 H2 z g Hz. cbn [exec]. now apply exec_before_brace. Qed.
End BeforeBrace.

(** The closing [})] of a pattern, tried at the start of a run without
    closing brace. *)
Lemma close_at_brace z t g rest g' :
  all_chars (cls_ok (NoneOf (ch "}"))) z = true ->
  exec (Lit "})") (z ++ String "}" t) g (fun s' g0 => Some (s', g0))
  = Some (rest, g') ->
  t = String ")" rest.
Proof.
  intros Hz. cbn [exec]. destruct z as [|c z].
  - rewrite append_nil_l, strip_prefix_cons. cbn [Ascii.eqb Bool.eqb].
    destruct t as [|d t]; [discriminate |]. rewrite strip_prefix_cons.
    destruct (Ascii.eqb_spec ")" d) as [<-|]; [|discriminate].
    cbn. now intros [= -> _].
  - rewrite append_cons, strip_prefix_cons.
    cbn [all_chars] in Hz. apply andb_true_iff in Hz as [Hc _].
    destruct (Ascii.eqb_spec "}" c) as [<-|]; discriminate.
Qed.

Lemma close_without_brace z g :
  all_chars (cls_ok (NoneOf (ch "}"))) z = true ->
  exec (Lit "})") (z ++ "") g (fun s' g0 => Some (s', g0)) = None.
Proof.
  intros Hz. rewrite append_nil_r. cbn [exec]. destruct z as [|c z]; [reflexivity |].
  rewrite strip_prefix_cons.
  cbn [all_chars] in Hz. apply andb_true_iff in Hz as [Hc _].
  destruct (Ascii.eqb_spec "}" c) as [<-|]; [discriminate | reflexivity].
Qed.

Ltac before_brace Q r0 :=
  repeat (apply (exec_cat_before_brace Q r0);
          [ try discriminate; try reflexivity
          | first [now left | right; eexists; reflexivity]
          | reflexivity
          | ]).

(** A match of the first or of the third pattern ends at the first closing
    brace after its start. *)
Lemma brace_free_rule_ends z t rest g' r :
  r = pattern1 \/ r = pattern3 ->
  all_chars (cls_ok (NoneOf (ch "}"))) z = true ->
  match_here r (z ++ String "}" t) = Some (rest, g') ->
  t = String ")" rest.
Proof.
  intros Hr Hz. unfold match_here.
  set (Q := fun o : option (string * groups) =>
              forall rest g', o = Some (rest, g') -> t = String ")" rest).
  enough (H : forall z g, all_chars (cls_ok (NoneOf (ch "}"))) z = true ->
                Q (exec r (z ++ String "}" t) g (fun s' g0 => Some (s', g0))))
    by (apply (H z no_groups Hz)).
  clear z Hz rest g'.
  destruct Hr as [-> | ->]; [unfold pattern1 | unfold pattern3];
    before_brace Q (String "}" t);
    intros z g Hz rest g'; now apply close_at_brace.
Qed.

Lemma brace_free_rule_needs_brace z r :
  r = pattern1 \/ r = pattern3 ->
  all_chars (cls_ok (NoneOf (ch "}"))) z = true ->
  match_here r z = None.
Proof.
  intros Hr Hz. unfold match_here. rewrite <- (append_nil_r z).
  set (Q := fun o : option (string * groups) => o = None).
  enough (H : forall z g, all_chars (cls_ok (NoneOf (ch "}"))) z = true ->
                Q (exec r (z ++ "") g (fun s' g0 => Some (s', g0))))
    by (apply (H z no_groups Hz)).
  clear z Hz.
  destruct Hr as [-> | ->]; [unfold pattern1 | unfold pattern3];
    before_brace Q "";
    intros z g Hz; now apply close_without_brace.
Qed.

(** X10.  The first and the third rule never reach across a closing brace.
    A match of [pattern1] or [pattern3] that starts at some position ends
    with the first closing brace after that position, which must be
    followed by a closing parenthesis; where the rest of the text has no
    closing brace, there is no match. *)
Theorem match_ends_at_first_brace (r : regex) (z : string) :
  r = pattern1 \/ r = pattern3 ->
  all_chars (cls_ok (NoneOf (ch "}"))) z = true ->
  match_here r z = None
  /\ forall t rest g,
       match_here r (z ++ String "}" t) = Some (rest, g) -> t = String ")" rest.
Proof.
  intros Hr Hz. split.
  - now apply brace_free_rule_needs_brace.
  - intros t rest g. now apply brace_free_rule_ends.
Qed.

Lemma match_ends_at_first_brace_witness :
  match_here pattern1 "db.query.a.findFirst({ where: x" = None
  /\ forall t rest g,
       match_here pattern1 ("db.query.a.findFirst({ where: x" ++ String "}" t)
       = Some (rest, g) ->
       t = String ")" rest.
Proof.
  apply (match_ends_at_first_brace pattern1 "db.query.a.findFirst({ where: x").
  - now left.
  - reflexivity.
Defined.

(** ** A comma in the condition *)

Ltac ascii_cases c :=
  destruct c as [[] [] [] [] [] [] [] []]; vm_compute; congruence.

Lemma space_not_comma_brace c :
  is_space c = true -> cls_ok (NoneOf (ch ",}")) c = true.
Proof. ascii_cases c. Qed.

Lemma space_foreign c :
  is_space c = true -> negb (mem_ascii c (ch "db.query.")) = true.
Proof. ascii_cases c. Qed.

Lemma contains_foreign_run p s t :
  p <> "" ->
  all_chars (fun c => negb (mem_ascii c (ch p))) s = true ->
  contains p (s ++ t) = contains p t.
Proof.
  intros Hp Hs. induction s as [|c s IH]; [reflexivity |].
  cbn [all_chars] in Hs. apply andb_true_iff in Hs as [Hc Hs].
  rewrite append_cons, contains_cons, IH by assumption.
  destruct p as [|a p]; [congruence |]. rewrite strip_prefix_cons.
  cbn in Hc. apply negb_true_iff, orb_false_iff in Hc as [Hc _].
  now rewrite Ascii.eqb_sym, Hc.
Qed.

Section ExecFail.
Context {R : Type}.
Implicit Types (cont : string -> groups -> option R).

Lemma exec_many_fail k rest a r g cont :
  all_chars (cls_ok k) a = true -> stops k r = true ->
  (forall a', all_chars (cls_ok k) a' = true ->
              exec rest (a' ++ r) g cont = None) ->
  exec (Many k >> rest) (a ++ r) g cont = None.
Proof. intros Ha Hr H. cbn [exec]. now apply many_fail. Qed.

Lemma exec_maybe_fail r' rest s g cont :
  exec (r' >> rest) s g cont = None -> exec rest s g cont = None ->
  exec (Maybe r' >> rest) s g cont = None.
Proof. cbn [exec]. now intros -> ->. Qed.

(** Literal text that starts with a character outside the class [k], tried
    after a run of [k]: it is found only after the empty run. *)
Lemma exec_lit_or_fail k d p rest a s g cont :
  cls_ok k d = false -> all_chars (cls_ok k) a = true ->
  exec rest s g cont = None ->
  exec (Lit (String d p) >> rest) (a ++ String d p ++ s) g cont = None.
Proof.
  intros Hd Ha H. destruct a as [|c a].
  - now rewrite append_nil_l, exec_lit_eq.
  - cbn [exec]. rewrite append_cons, strip_prefix_cons.
    cbn [all_chars] in Ha. apply andb_true_iff in Ha as [Hc _].
    destruct (Ascii.eqb_spec d c) as [->|]; [congruence | reflexivity].
Qed.

(** White space and then literal text that the subject does not have after
    its white space. *)
Lemma spaces_then_lit_fail d q rest b g cont :
  is_space d = false ->
  strip_prefix (String d q) (skip_spaces b) = None ->
  exec (Many Space >> Lit (String d q) >> rest) b g cont = None.
Proof.
  intros Hd. cbn [exec]. induction b as [|c b IH]; cbn [skip_spaces many].
  - now intros ->.
  - cbn [cls_ok]. destruct (is_space c) eqn:Hc.
    + intros H. rewrite (IH H). rewrite strip_prefix_cons.
      destruct (Ascii.eqb_spec d c) as [->|]; [congruence | reflexivity].
    + now intros ->.
Qed.

(** The closing [\s*\}\)] is not found in a run without closing brace that
    ends at a comma. *)
Lemma close_in_run_fail a b g cont :
  all_chars (cls_ok (NoneOf (ch ",}"))) a = true ->
  exec (Many Space >> Lit "})") (a ++ "," ++ b) g cont = None.
Proof.
  intros Ha. cbn [exec]. induction a as [|c a IH].
  - reflexivity.
  - cbn [all_chars] in Ha. apply andb_true_iff in Ha as [Hc Ha].
    rewrite append_cons. cbn [many]. rewrite (IH Ha), strip_prefix_cons.
    assert (Ascii.eqb "}" c = false) as ->.
    { destruct (Ascii.eqb_spec "}" c) as [<-|]; [discriminate | reflexivity]. }
    now destruct (cls_ok Space c).
Qed.

(** The common start of the third and the fourth pattern, up to the
    condition: if what follows in the pattern fails after every run without
    comma and closing brace that ends at the first comma, the pattern does
    not match. *)
Lemma findMany_condition_fail rest X ws1 ws2 a b cont :
  all_chars is_word X = true ->
  all_chars is_space ws1 = true -> all_chars is_space ws2 = true ->
  nonempty a = true -> all_chars (cls_ok (NoneOf (ch ",}"))) a = true ->
  stops Space a = true ->
  (forall a' g, all_chars (cls_ok (NoneOf (ch ",}"))) a' = true ->
                exec rest (a' ++ "," ++ b) g cont = None) ->
  exec (Lit "db.query." >> Group 1 (Many1 Word) >> Lit ".findMany({"
        >> Many Space >> Lit "where:" >> Many Space >> rest)
       (findMany_where X ws1 ws2 (a ++ "," ++ b)) no_groups cont
  = None.
Proof.
  intros HX Hw1 Hw2 Ha%nonempty_ne Hac Has Hrest. unfold findMany_where.
  rewrite exec_lit_eq.
  apply exec_group_many1_fail; [assumption | reflexivity |].
  intros x' g1 Hx'.
  apply (exec_lit_or_fail Word); [reflexivity | assumption |].
  apply exec_many_fail; [assumption | reflexivity |].
  intros w1' Hw1'.
  apply (exec_lit_or_fail Space); [reflexivity | assumption |].
  apply exec_many_fail; [assumption | now apply stops_append |].
  intros w2' Hw2'. rewrite <- append_assoc. apply Hrest.
  rewrite all_chars_append, Hac, andb_true_r.
  revert Hw2'. apply all_chars_impl. exact space_not_comma_brace.
Qed.
End ExecFail.

Lemma pattern3_stops_at_comma X ws1 ws2 a b :
  all_chars is_word X = true ->
  all_chars is_space ws1 = true -> all_chars is_space ws2 = true ->
  nonempty a = true -> all_chars (cls_ok (NoneOf (ch ",}"))) a = true ->
  stops Space a = true ->
  strip_prefix "orderBy:" (skip_spaces b) = None ->
  strip_prefix "limit:" (skip_spaces b) = None ->
  match_here pattern3 (findMany_where X ws1 ws2 (a ++ "," ++ b)) = None.
Proof.
  intros HX Hw1 Hw2 Ha Hac Has Ho Hl. unfold match_here, pattern3.
  apply findMany_condition_fail; try assumption.
  intros a' g Ha'.
  apply exec_group_many1_fail; [assumption | reflexivity |].
  intros a2 g2 Ha2.
  apply exec_maybe_fail.
  { rewrite exec_cat_assoc4.
    apply (exec_lit_or_fail (NoneOf (ch ",}")) "," ""); [reflexivity | assumption |].
    now apply spaces_then_lit_fail. }
  apply exec_maybe_fail.
  { rewrite exec_cat_assoc4.
    apply (exec_lit_or_fail (NoneOf (ch ",}")) "," ""); [reflexivity | assumption |].
    now apply spaces_then_lit_fail. }
  now apply close_in_run_fail.
Qed.

Lemma pattern4_stops_at_comma X ws1 ws2 a b :
  all_chars is_word X = true ->
  all_chars is_space ws1 = true -> all_chars is_space ws2 = true ->
  nonempty a = true -> all_chars (cls_ok (NoneOf (ch ",}"))) a = true ->
  stops Space a = true ->
  strip_prefix "orderBy:" (skip_spaces b) = None ->
  match_here pattern4 (findMany_where X ws1 ws2 (a ++ "," ++ b)) = None.
Proof.
  intros HX Hw1 Hw2 Ha Hac Has Ho. unfold match_here, pattern4.
  apply findMany_condition_fail; try assumption.
  intros a' g Ha'.
  apply exec_group_many1_fail; [assumption | reflexivity |].
  intros a2 g2 Ha2.
  apply (exec_lit_or_fail (NoneOf (ch ",}")) "," ""); [reflexivity | assumption |].
  now apply spaces_then_lit_fail.
Qed.

(** After the table, a rule that asks for other text than the subject has
    does not match. *)
Lemma rule_not_at_start q r2 X t :
  all_chars is_word X = true ->
  stops Word t = true -> strip_prefix (String "." q) t = None ->
  match_here (Lit "db.query." >> Group 1 (Many1 Word) >> Lit (String "." q) >> r2)
    ("db.query." ++ X ++ t) = None.
Proof.
  intros HX Ht Hq. unfold match_here. rewrite exec_lit_eq.
  apply exec_group_many1_fail; [assumption | assumption |].
  intros a' g' Ha'.
  now apply (exec_lit_after_run_fail Word).
Qed.

Lemma pattern5_not_at_start X t :
  all_chars is_word X = true ->
  stops Word t = true -> strip_prefix ".findMany()" t = None ->
  match_here pattern5 ("db.query." ++ X ++ t) = None.
Proof.
  intros HX Ht Hq. unfold match_here, pattern5. rewrite exec_lit_eq.
  apply exec_group_many1_fail; [assumption | assumption |].
  intros a' g' Ha'. cbn [exec].
  destruct a' as [|c a']; [now rewrite append_nil_l, Hq |].
  rewrite append_cons, strip_prefix_cons.
  cbn [all_chars] in Ha'. apply andb_true_iff in Ha' as [Hc _].
  destruct (Ascii.eqb_spec "." c) as [<-|]; [discriminate | reflexivity].
Qed.

Lemma found_from_second r c s :
  match_here r (String c s) = None -> found r s = false ->
  found r (String c s) = false.
Proof. cbn [found]. now intros -> ->. Qed.

(** X11.  A comma in the condition stops the rules for [findMany].  Take a
    text that starts with [db.query.X.findMany({ where: A,] where [A], the
    condition up to its first comma, has no closing brace, and where the
    comma is followed neither by [orderBy:] nor by [limit:] (white space
    aside).  If [db.query.] does not occur again in the text, the
    transformation leaves the whole text as it is. *)
Theorem fix_comma_condition (X ws1 ws2 A B : string) :
  nonempty X = true -> all_chars is_word X = true ->
  all_chars is_space ws1 = true -> all_chars is_space ws2 = true ->
  nonempty A = true -> all_chars (cls_ok (NoneOf (ch ",}"))) A = true ->
  stops Space A = true ->
  strip_prefix "orderBy:" (skip_spaces B) = None ->
  strip_prefix "limit:" (skip_spaces B) = None ->
  contains "db.query." (A ++ "," ++ B) = false ->
  fix_drizzle_syntax (findMany_where X ws1 ws2 (A ++ "," ++ B))
  = findMany_where X ws1 ws2 (A ++ "," ++ B).
Proof.
  intros HX HXw Hw1 Hw2 HA HAc HAs Ho Hl Hq.
  apply fix_no_match. unfold no_match.
  assert (Hin : contains "db.query."
                  ("b.query." ++ X ++ ".findMany({" ++ ws1 ++ "where:" ++ ws2
                   ++ A ++ "," ++ B) = false).
  { rewrite 8!append_cons, append_nil_l. simpl.
    rewrite contains_word_run by (assumption || reflexivity).
    rewrite 11!append_cons, append_nil_l. simpl.
    rewrite contains_foreign_run;
      [ | discriminate | revert Hw1; apply all_chars_impl, space_foreign ].
    rewrite 6!append_cons, append_nil_l. simpl.
    rewrite contains_foreign_run;
      [ assumption | discriminate
      | revert Hw2; apply all_chars_impl, space_foreign ]. }
  assert (Hrest : forall r, found (Lit "db.query." >> r)
                    ("b.query." ++ X ++ ".findMany({" ++ ws1 ++ "where:" ++ ws2
                     ++ A ++ "," ++ B) = false)
    by (intros r; now apply found_needs_literal).
  unfold findMany_where. rewrite (append_cons "d" "b.query.").
  rewrite !found_from_second; try reflexivity; try apply Hrest;
    rewrite <- append_cons.
  - now apply pattern5_not_at_start.
  - now apply pattern4_stops_at_comma.
  - now apply pattern3_stops_at_comma.
  - now apply (rule_not_at_start "findFirst({").
  - now apply (rule_not_at_start "findFirst({").
Qed.

Lemma fix_comma_condition_witness :
  fix_drizzle_syntax
    (findMany_where "posts" " " " "
       ("eq(author" ++ "," ++ " 2), orderBy: [desc(createdAt)], limit: 5 })"))
  = findMany_where "posts" " " " "
      ("eq(author" ++ "," ++ " 2), orderBy: [desc(createdAt)], limit: 5 })").
Proof.
  apply (fix_comma_condition "posts" " " " " "eq(author"
           " 2), orderBy: [desc(createdAt)], limit: 5 })");
    reflexivity.
Defined.

(** ** The fourth rule *)

Lemma digit_not_space c : is_digit c = true -> is_space c = false.
Proof. ascii_cases c. Qed.

Lemma digit_foreign c :
  is_digit c = true -> negb (mem_ascii c (ch "db.query.")) = true.
Proof. ascii_cases c. Qed.

Lemma word_not_brace c :
  is_word c = true -> cls_ok (NoneOf (ch "}")) c = true.
Proof. ascii_cases c. Qed.

Lemma not_comma_brace_not_brace c :
  cls_ok (NoneOf (ch ",}")) c = true -> cls_ok (NoneOf (ch "}")) c = true.
Proof. ascii_cases c. Qed.

Lemma opens_foreign_run p s t :
  p <> "" ->
  all_chars (fun c => negb (mem_ascii c (ch p))) s = true ->
  opens p (s ++ t) = opens p t.
Proof.
  intros Hp Hs. induction s as [|c s IH]; [reflexivity |].
  cbn [all_chars] in Hs. apply andb_true_iff in Hs as [Hc Hs].
  rewrite append_cons, opens_cons, IH by assumption.
  destruct p as [|a p]; [congruence |]. rewrite compatible_cons.
  cbn in Hc. apply negb_true_iff, orb_false_iff in Hc as [Hc _].
  now rewrite Ascii.eqb_sym, Hc.
Qed.

(** The first closing brace of a text, and what comes before and after. *)
Lemma brace_inside_split s :
  brace_inside s = true ->
  exists s1 d s2,
    s = s1 ++ String "}" (String d s2)
    /\ all_chars (cls_ok (NoneOf (ch "}"))) s1 = true
    /\ d <> ")"%char.
Proof.
  induction s as [|c s IH]; [discriminate |]. cbn [brace_inside].
  destruct (Ascii.eqb_spec c "}") as [->|Hc].
  - destruct s as [|d s]; [discriminate |].
    intros Hd%negb_true_iff%Ascii.eqb_neq.
    exists "", d, s. now repeat split.
  - intros (s1 & d & s2 & -> & H1 & Hd)%IH.
    exists (String c s1), d, s2. repeat split; [|assumption].
    cbn [all_chars]. rewrite H1, andb_true_r.
    cbn. rewrite orb_false_r. now apply negb_true_iff, Ascii.eqb_neq.
Qed.

(** A rule that does not match at the start of a text in which no further
    occurrence of [db.query.] opens copies the text and goes on after
    it. *)
Lemma sub_skips p r repl c s t :
  match_here (Lit p >> r) (String c s ++ t) = None ->
  opens p s = false ->
  re_sub (Lit p >> r) repl (String c s ++ t)
  = String c s ++ re_sub (Lit p >> r) repl t.
Proof.
  intros Hm Ho. rewrite append_cons in *.
  now rewrite sub_step_no_match, sub_frame.
Qed.

Section ExecChains.
Context {R : Type}.
Implicit Types (cont : string -> groups -> option R).

Lemma exec_cat_assoc5 r1 r2 r3 r4 r5 r6 s g cont :
  exec ((r1 >> r2 >> r3 >> r4 >> r5) >> r6) s g cont
  = exec (r1 >> r2 >> r3 >> r4 >> r5 >> r6) s g cont.
Proof. reflexivity. Qed.
End ExecChains.

(** No occurrence of [db.query.] opens inside an ordered call after its
    first character. *)
Lemma ordered_call_closed X C O N :
  all_chars is_word X = true -> limit_ok N = true ->
  contains "db.query." C = false -> contains "db.query." O = false ->
  opens "db.query."
    ("b.query." ++ X ++ ".findMany({ where: " ++ C ++ ", orderBy: [" ++ O ++ "]"
     ++ limit_clause N ++ " })") = false.
Proof.
  intros HX HN HC HO. rewrite !append_cons, !append_nil_l. simpl.
  rewrite opens_word_run by (assumption || reflexivity). simpl.
  rewrite opens_foreign_tail by (assumption || reflexivity). simpl.
  rewrite opens_foreign_tail by (assumption || reflexivity). simpl.
  destruct N as [n|]; cbn [limit_clause limit_ok] in *; [|reflexivity].
  apply andb_true_iff in HN as [_ Hn].
  rewrite !append_cons, !append_nil_l. simpl.
  rewrite opens_foreign_run;
    [ reflexivity | discriminate | revert Hn; apply all_chars_impl, digit_foreign ].
Qed.

Lemma ordered_result_closed X C O N :
  all_chars is_word X = true -> limit_ok N = true ->
  contains "db.query." C = false -> contains "db.query." O = false ->
  opens "db.query." (ordered_result X C O N) = false.
Proof.
  intros HX HN HC HO. unfold ordered_result.
  rewrite (append_cons ")" ".orderBy("), select_where_closed
    by (assumption || reflexivity).
  rewrite !append_cons, !append_nil_l. simpl.
  rewrite opens_foreign_tail by (assumption || reflexivity). simpl.
  destruct N as [n|]; cbn [limit_call limit_ok] in *; [|reflexivity].
  apply andb_true_iff in HN as [_ Hn].
  rewrite !append_cons, !append_nil_l. simpl.
  rewrite opens_foreign_run;
    [ reflexivity | discriminate | revert Hn; apply all_chars_impl, digit_foreign ].
Qed.

(** The fourth pattern matches an ordered call; its groups are the table,
    the condition, the ordering and, if there is one, the limit. *)
Lemma pattern4_matches_call X C O N t :
  nonempty X = true -> all_chars is_word X = true ->
  nonempty C = true -> all_chars (cls_ok (NoneOf (ch ",}"))) C = true ->
  stops Space C = true ->
  nonempty O = true -> all_chars (cls_ok (NoneOf (ch "]"))) O = true ->
  limit_ok N = true ->
  match_here pattern4 (ordered_call X C O N ++ t)
  = Some (t, match N with
             | Some n => <[4 := Some n]>
             | None => fun g => g
             end (<[3 := Some O]> (<[2 := Some C]> (<[1 := Some X]> no_groups)))).
Proof.
  intros HX%nonempty_ne HXw HC%nonempty_ne HCc HCs HO%nonempty_ne HOc HN.
  unfold match_here, pattern4, ordered_call. rewrite !append_assoc.
  change (".findMany({ where: " ++ C ++ ", orderBy: [" ++ O ++ "]"
          ++ limit_clause N ++ " })" ++ t)
    with (".findMany({" ++ " " ++ "where:" ++ " " ++ C ++ "," ++ " "
          ++ "orderBy:" ++ " " ++ "[" ++ O ++ "]" ++ limit_clause N ++ " })" ++ t).
  rewrite exec_lit_eq.
  apply exec_group_many1; [assumption | assumption | reflexivity |].
  rewrite exec_lit_eq.
  apply exec_many; [reflexivity | reflexivity |].
  rewrite exec_lit_eq.
  apply exec_many; [reflexivity | now apply stops_append |].
  apply exec_group_many1; [assumption | assumption | reflexivity |].
  rewrite exec_lit_eq.
  apply exec_many; [reflexivity | reflexivity |].
  rewrite exec_lit_eq.
  apply exec_many; [reflexivity | reflexivity |].
  rewrite exec_lit_eq.
  apply exec_group_many1; [assumption | assumption | reflexivity |].
  rewrite exec_lit_eq.
  destruct N as [n|]; cbn [limit_clause limit_ok] in *.
  - apply andb_true_iff in HN as [Hn%nonempty_ne Hnd].
    rewrite append_assoc.
    change (", limit: " ++ n ++ " })" ++ t)
      with ("," ++ " " ++ "limit:" ++ " " ++ n ++ " " ++ "})" ++ t).
    apply exec_maybe_take. rewrite exec_cat_assoc5.
    rewrite exec_lit_eq.
    apply exec_many; [reflexivity | reflexivity |].
    rewrite exec_lit_eq.
    apply exec_many; [reflexivity | |].
    { apply stops_append; [assumption |].
      destruct n as [|c n]; [congruence |]. cbn [all_chars] in Hnd.
      apply andb_true_iff in Hnd as [Hc _]. cbn.
      now rewrite (digit_not_space c Hc). }
    apply exec_group_many1; [assumption | assumption | reflexivity |].
    apply exec_many; [reflexivity | reflexivity |].
    now rewrite exec_lit_end.
  - change ("" ++ " })" ++ t) with (" " ++ "})" ++ t).
    apply exec_maybe_skip; [reflexivity |].
    apply exec_many; [reflexivity | reflexivity |].
    now rewrite exec_lit_end.
Qed.

(** The third pattern does not match an ordered call whose ordering has a
    closing brace. *)
Lemma pattern3_not_ordered X C O N t :
  all_chars is_word X = true ->
  all_chars (cls_ok (NoneOf (ch ",}"))) C = true ->
  brace_inside (O ++ "]") = true ->
  match_here pattern3 (ordered_call X C O N ++ t) = None.
Proof.
  intros HX HC (o1 & d & o2 & HO & Ho1 & Hd)%brace_inside_split.
  assert (Hshape :
    ordered_call X C O N ++ t
    = ("db.query." ++ X ++ ".findMany({ where: " ++ C ++ ", orderBy: [" ++ o1)
      ++ String "}" (String d (o2 ++ limit_clause N ++ " })" ++ t))).
  { unfold ordered_call. rewrite !append_assoc.
    rewrite <- (append_assoc O "]"), HO. now rewrite !append_assoc. }
  rewrite Hshape.
  destruct (match_here pattern3 _) as [[rest g]|] eqn:E; [exfalso | reflexivity].
  apply (brace_free_rule_ends _ _ _ _ pattern3) in E; [congruence | now right |].
  rewrite !all_chars_append, Ho1, andb_true_r.
  rewrite (all_chars_impl _ _ _ word_not_brace HX).
  now rewrite (all_chars_impl _ _ _ not_comma_brace_not_brace HC).
Qed.

Lemma replacement4_limit X C O n :
  n <> "" ->
  replacement4
    (<[4 := Some n]> (<[3 := Some O]> (<[2 := Some C]> (<[1 := Some X]> no_groups))))
  = ordered_result X C O (Some n).
Proof.
  intros Hn%String.eqb_neq. unfold replacement4, ordered_result, limit_call.
  change (truthy _) with (negb (String.eqb n "")). rewrite Hn. cbn [negb].
  cbv [fstr group]. cbn. now rewrite !append_assoc.
Qed.

(** The fourth rule at a call whose ordering stops the third rule, inside
    a larger text. *)
Lemma fix_at_ordered (X C O : string) (N : option string) (post : string) :
  nonempty X = true -> all_chars is_word X = true ->
  nonempty C = true -> all_chars (cls_ok (NoneOf (ch ",}"))) C = true ->
  stops Space C = true ->
  nonempty O = true -> all_chars (cls_ok (NoneOf (ch "]"))) O = true ->
  brace_inside (O ++ "]") = true ->
  limit_ok N = true ->
  contains "db.query." C = false -> contains "db.query." O = false ->
  fix_drizzle_syntax (ordered_call X C O N ++ post)
  = ordered_result X C O N ++ fix_drizzle_syntax post.
Proof.
  intros HX HXw HC HCc HCs HO HOc HOb HN HqC HqO.
  assert (Hcall : exists s, ordered_call X C O N = String "d" s
                            /\ opens "db.query." s = false).
  { eexists. split; [reflexivity |]. now apply ordered_call_closed. }
  destruct Hcall as (s & Es & Hs).
  assert (H12 : forall r2 t,
            match_here (Lit "db.query." >> Group 1 (Many1 Word)
                        >> Lit ".findFirst({" >> r2)
              (ordered_call X C O N ++ t) = None).
  { intros r2 t. unfold ordered_call. rewrite !append_assoc.
    apply rule_not_at_start; [assumption | reflexivity | reflexivity]. }
  assert (H3 := pattern3_not_ordered X C O N).
  unfold fix_drizzle_syntax.
  unfold pattern1 at 1. rewrite Es, sub_skips, <- Es by (rewrite <- ?Es; auto).
  unfold pattern2 at 1. rewrite Es, sub_skips, <- Es by (rewrite <- ?Es; auto).
  unfold pattern3 at 1. rewrite Es, sub_skips, <- Es
    by (rewrite <- ?Es; auto; apply H3; assumption).
  fold pattern1 pattern2 pattern3.
  erewrite (sub_match_first pattern4);
    [ | rewrite Es; discriminate
      | apply pattern4_matches_call; assumption ].
  assert (Hrepl : replacement4
            (match N with
             | Some n => <[4 := Some n]>
             | None => fun g => g
             end (<[3 := Some O]> (<[2 := Some C]> (<[1 := Some X]> no_groups))))
          = ordered_result X C O N).
  { destruct N as [n|]; cbn [limit_ok] in HN.
    - apply andb_true_iff in HN as [Hn%nonempty_ne _].
      now apply replacement4_limit.
    - reflexivity. }
  rewrite Hrepl. unfold pattern5 at 1.
  rewrite sub_frame by now apply ordered_result_closed.
  reflexivity.
Qed.

(** X12.  The fourth rule is reached when the third one is stopped by a
    closing brace inside the ordering.  For a table [X] of word characters,
    a condition [C] without comma and closing brace that does not start with
    white space, an ordering [O] without closing bracket whose first closing
    brace is not followed by a closing parenthesis, and an optional limit of
    digits, the call
    [db.query.X.findMany({ where: C, orderBy: [O], limit: N })] is rewritten
    to [db.select().from(X).where(C).orderBy(O).limit(N)], the limit being
    left out when the call has none; [db.query.] must occur neither in [C]
    nor in [O].  What follows the call is transformed as if it stood
    alone. *)
Theorem fix_ordered (X C O : string) (N : option string) (post : string) :
  nonempty X = true -> all_chars is_word X = true ->
  nonempty C = true -> all_chars (cls_ok (NoneOf (ch ",}"))) C = true ->
  stops Space C = true ->
  nonempty O = true -> all_chars (cls_ok (NoneOf (ch "]"))) O = true ->
  brace_inside (O ++ "]") = true ->
  limit_ok N = true ->
  contains "db.query." C = false -> contains "db.query." O = false ->
  fix_drizzle_syntax (ordered_call X C O N ++ post)
  = ordered_result X C O N ++ fix_drizzle_syntax post.
Proof. exact (fix_at_ordered X C O N post). Qed.

Lemma fix_ordered_witness :
  fix_drizzle_syntax
    (ordered_call "p" "isNull(c)" "sql`${x} desc`" (Some "5") ++ ";")
  = ordered_result "p" "isNull(c)" "sql`${x} desc`" (Some "5")
    ++ fix_drizzle_syntax ";".
Proof.
  apply (fix_ordered "p" "isNull(c)" "sql`${x} desc`" (Some "5") ";");
    reflexivity.
Defined.

(** ** The second rule *)

Lemma space_not_brace c :
  is_space c = true -> cls_ok (NoneOf (ch "}")) c = true.
Proof. ascii_cases c. Qed.

Section ExecGroup.
Context {R : Type}.
Implicit Types (cont : string -> groups -> option R).

(** A group made of a run between two literal texts. *)
Lemma exec_group_wrapped n p k q rest a r g cont x :
  a <> "" -> all_chars (cls_ok k) a = true -> stops k (q ++ r) = true ->
  exec rest r (<[n := Some (p ++ a ++ q)]> g) cont = Some x ->
  exec (Group n (Lit p >> Many1 k >> Lit q) >> rest) (p ++ a ++ q ++ r) g cont
  = Some x.
Proof.
  intros Hne Ha Hr H. cbn [exec]. rewrite strip_prefix_append.
  apply many1_greedy; try assumption.
  rewrite strip_prefix_append.
  replace (p ++ a ++ q ++ r) with ((p ++ a ++ q) ++ r)
    by now rewrite !append_assoc.
  now rewrite consumed_append.
Qed.
End ExecGroup.

Lemma pattern2_matches_call X ws1 ws2 B ws3 t :
  nonempty X = true -> all_chars is_word X = true ->
  all_chars is_space ws1 = true -> all_chars is_space ws2 = true ->
  all_chars is_space ws3 = true ->
  nonempty B = true -> all_chars (cls_ok (NoneOf (ch ")"))) B = true ->
  match_here pattern2 (and_call X ws1 ws2 B ws3 ++ t)
  = Some (t, <[2 := Some ("and(" ++ B ++ ")")]> (<[1 := Some X]> no_groups)).
Proof.
  intros HX%nonempty_ne HXw Hw1 Hw2 Hw3 HB%nonempty_ne HBc.
  unfold match_here, pattern2, and_call. rewrite !append_assoc.
  rewrite exec_lit_eq.
  apply exec_group_many1; [assumption | assumption | reflexivity |].
  rewrite exec_lit_eq.
  apply exec_many; [assumption | reflexivity |].
  rewrite exec_lit_eq.
  apply exec_many; [assumption | reflexivity |].
  apply exec_group_wrapped; [assumption | assumption | reflexivity |].
  apply exec_many; [assumption | reflexivity |].
  now rewrite exec_lit_end.
Qed.

(** The first pattern does not match an [and] call whose body has a closing
    brace before its end. *)
Lemma pattern1_not_and X ws1 ws2 B ws3 t :
  all_chars is_word X = true ->
  all_chars is_space ws1 = true -> all_chars is_space ws2 = true ->
  brace_inside (B ++ ")") = true ->
  match_here pattern1 (and_call X ws1 ws2 B ws3 ++ t) = None.
Proof.
  intros HX Hw1 Hw2 (b1 & d & b2 & HB & Hb1 & Hd)%brace_inside_split.
  assert (Hshape :
    and_call X ws1 ws2 B ws3 ++ t
    = ("db.query." ++ X ++ ".findFirst({" ++ ws1 ++ "where:" ++ ws2
       ++ "and(" ++ b1)
      ++ String "}" (String d (b2 ++ ws3 ++ "})" ++ t))).
  { unfold and_call. rewrite !append_assoc.
    rewrite <- (append_assoc B ")"), HB. now rewrite !append_assoc. }
  rewrite Hshape.
  destruct (match_here pattern1 _) as [[rest g]|] eqn:E; [exfalso | reflexivity].
  apply (brace_free_rule_ends _ _ _ _ pattern1) in E; [congruence | now left |].
  rewrite !all_chars_append, Hb1.
  rewrite (all_chars_impl _ _ _ word_not_brace HX).
  rewrite (all_chars_impl _ _ _ space_not_brace Hw1).
  now rewrite (all_chars_impl _ _ _ space_not_brace Hw2).
Qed.

Lemma space_foreign_run ws t :
  all_chars is_space ws = true ->
  opens "db.query." (ws ++ t) = opens "db.query." t.
Proof.
  intros H. apply opens_foreign_run; [discriminate |].
  revert H. apply all_chars_impl, space_foreign.
Qed.

Lemma and_call_closed X ws1 ws2 B ws3 :
  all_chars is_word X = true ->
  all_chars is_space ws1 = true -> all_chars is_space ws2 = true ->
  all_chars is_space ws3 = true ->
  contains "db.query." B = false ->
  opens "db.query."
    ("b.query." ++ X ++ ".findFirst({" ++ ws1 ++ "where:" ++ ws2
     ++ "and(" ++ B ++ ")" ++ ws3 ++ "})") = false.
Proof.
  intros HX Hw1 Hw2 Hw3 HB. rewrite !append_cons, !append_nil_l. simpl.
  rewrite opens_word_run by (assumption || reflexivity). simpl.
  rewrite space_foreign_run by assumption. simpl.
  rewrite space_foreign_run by assumption. simpl.
  rewrite opens_foreign_tail by (assumption || reflexivity). simpl.
  rewrite space_foreign_run by assumption. reflexivity.
Qed.

Lemma and_body_clean B :
  contains "db.query." B = false ->
  contains "db.query." ("and(" ++ B ++ ")") = false.
Proof.
  intros HB. rewrite 4!append_cons, append_nil_l. simpl.
  rewrite contains_foreign_tail; [assumption | discriminate | reflexivity].
Qed.

(** The second rule at a call whose [and(...)] stops the first rule, inside
    a larger text. *)
Lemma fix_at_and (X ws1 ws2 B ws3 post : string) :
  nonempty X = true -> all_chars is_word X = true ->
  all_chars is_space ws1 = true -> all_chars is_space ws2 = true ->
  all_chars is_space ws3 = true ->
  nonempty B = true -> all_chars (cls_ok (NoneOf (ch ")"))) B = true ->
  brace_inside (B ++ ")") = true ->
  contains "db.query." B = false ->
  fix_drizzle_syntax (and_call X ws1 ws2 B ws3 ++ post)
  = "db.select().from(" ++ X ++ ").where(" ++ ("and(" ++ B ++ ")") ++ ").limit(1)"
    ++ fix_drizzle_syntax post.
Proof.
  intros HX HXw Hw1 Hw2 Hw3 HB HBc HBb Hq.
  assert (Hcall : exists s, and_call X ws1 ws2 B ws3 = String "d" s
                            /\ opens "db.query." s = false).
  { eexists. split; [reflexivity |]. now apply and_call_closed. }
  destruct Hcall as (s & Es & Hs).
  unfold fix_drizzle_syntax.
  unfold pattern1 at 1. rewrite Es, sub_skips, <- Es;
    [ | rewrite <- Es; now apply pattern1_not_and | assumption ].
  fold pattern1.
  rewrite (sub_match_first pattern2 _ _ _
             (<[2 := Some ("and(" ++ B ++ ")")]> (<[1 := Some X]> no_groups)));
    [ | rewrite Es; discriminate | now apply pattern2_matches_call ].
  change (expand replacement2
            (<[2 := Some ("and(" ++ B ++ ")")]> (<[1 := Some X]> no_groups)))
    with ("db.select().from(" ++ X ++ ").where(" ++ ("and(" ++ B ++ ")")
          ++ ").limit(1)").
  assert (Hout : opens "db.query."
                   ("db.select().from(" ++ X ++ ").where(" ++ ("and(" ++ B ++ ")")
                    ++ ").limit(1)") = false).
  { rewrite (select_where_closed X ("and(" ++ B ++ ")") ")" ".limit(1)");
      [reflexivity | assumption | now apply and_body_clean | reflexivity]. }
  unfold pattern3 at 1, pattern4 at 1, pattern5 at 1.
  rewrite !sub_frame by assumption. now rewrite !append_assoc.
Qed.

(** X13.  The second rule is reached when the first one is stopped by a
    closing brace inside [and(...)].  For a table [X] of word characters and
    a body [B] without closing parenthesis whose first closing brace is not
    its last character, the call [db.query.X.findFirst({ where: and(B) })],
    with any white space after the opening brace, after [where:] and before
    the closing brace, is rewritten to
    [db.select().from(X).where(and(B)).limit(1)], without the white space
    before the brace; [db.query.] must not occur in [B].  What follows the
    call is transformed as if it stood alone. *)
Theorem fix_findFirst_and (X ws1 ws2 B ws3 post : string) :
  nonempty X = true -> all_chars is_word X = true ->
  all_chars is_space ws1 = true -> all_chars is_space ws2 = true ->
  all_chars is_space ws3 = true ->
  nonempty B = true -> all_chars (cls_ok (NoneOf (ch ")"))) B = true ->
  brace_inside (B ++ ")") = true ->
  contains "db.query." B = false ->
  fix_drizzle_syntax (and_call X ws1 ws2 B ws3 ++ post)
  = "db.select().from(" ++ X ++ ").where(" ++ ("and(" ++ B ++ ")") ++ ").limit(1)"
    ++ fix_drizzle_syntax post.
Proof. exact (fix_at_and X ws1 ws2 B ws3 post). Qed.

Lemma fix_findFirst_and_witness :
  fix_drizzle_syntax
    (and_call "users" " " " " "isActive, { id: 1 }.id" " " ++ ";")
  = "db.select().from(" ++ "users" ++ ").where("
    ++ ("and(" ++ "isActive, { id: 1 }.id" ++ ")") ++ ").limit(1)"
    ++ fix_drizzle_syntax ";".
Proof.
  apply (fix_findFirst_and "users" " " " " "isActive, { id: 1 }.id" " " ";");
    reflexivity.
Defined.

(** ** The third rule inside a larger text *)

Lemma pattern3_matches_call_then X C m t :
  nonempty X = true -> all_chars is_word X = true ->
  nonempty C = true -> all_chars (cls_ok (NoneOf (ch ",}"))) C = true ->
  stops Space C = true -> clauses_ok m = true ->
  match_here pattern3 (findMany_call X C m ++ t)
  = Some (t, <[2 := Some C]> (<[1 := Some X]> no_groups)).
Proof.
  intros HX%nonempty_ne HXw HC%nonempty_ne HCc HCs Hm.
  unfold match_here, pattern3, findMany_call. rewrite !append_assoc.
  change (".findMany({ where: " ++ C ++ clauses_text m ++ "})" ++ t)
    with (".findMany({" ++ " " ++ "where:" ++ " " ++ C
          ++ clauses_text m ++ "})" ++ t).
  rewrite exec_lit_eq.
  apply exec_group_many1; [assumption | assumption | reflexivity |].
  rewrite exec_lit_eq.
  apply exec_many; [reflexivity | reflexivity |].
  rewrite exec_lit_eq.
  apply exec_many; [reflexivity | now apply stops_append |].
  apply exec_group_many1; [assumption | assumption | now destruct m |].
  destruct m as [|o|l]; cbn [clauses_text clauses_ok] in *.
  - apply exec_maybe_skip; [reflexivity |].
    apply exec_maybe_skip; [reflexivity |].
    apply exec_many; [reflexivity | reflexivity |].
    now rewrite exec_lit_end.
  - rewrite append_assoc.
    change (", orderBy:" ++ o ++ "})" ++ t)
      with ("," ++ " " ++ "orderBy:" ++ o ++ "" ++ "})" ++ t).
    apply exec_maybe_take. rewrite exec_cat_assoc4.
    rewrite exec_lit_eq.
    apply exec_many; [reflexivity | reflexivity |].
    rewrite exec_lit_eq.
    apply exec_many; [assumption | reflexivity |].
    apply exec_maybe_skip; [reflexivity |].
    apply exec_many; [reflexivity | reflexivity |].
    now rewrite exec_lit_end.
  - rewrite append_assoc.
    change (", limit:" ++ l ++ "})" ++ t)
      with ("," ++ " " ++ "limit:" ++ l ++ "" ++ "})" ++ t).
    apply exec_maybe_skip; [reflexivity |].
    apply exec_maybe_take. rewrite exec_cat_assoc4.
    rewrite exec_lit_eq.
    apply exec_many; [reflexivity | reflexivity |].
    rewrite exec_lit_eq.
    apply exec_many; [assumption | reflexivity |].
    apply exec_many; [reflexivity | reflexivity |].
    now rewrite exec_lit_end.
Qed.

Lemma findMany_call_closed X C m :
  all_chars is_word X = true ->
  contains "db.query." C = false ->
  contains "db.query." (clauses_body m) = false ->
  opens "db.query."
    ("b.query." ++ X ++ ".findMany({ where: " ++ C ++ clauses_text m ++ "})")
  = false.
Proof.
  intros HX HC Hm. destruct m as [|o|l]; cbn [clauses_text clauses_body] in *;
    rewrite ?append_assoc, !append_cons, !append_nil_l; simpl;
    rewrite opens_word_run by (assumption || reflexivity); simpl;
    rewrite opens_foreign_tail by (assumption || reflexivity); simpl;
    try reflexivity;
    now rewrite opens_foreign_tail by (assumption || reflexivity).
Qed.

(** The third rule at a [findMany] call, inside a larger text. *)
Lemma fix_at_findMany (X C : string) (m : clauses) (post : string) :
  nonempty X = true -> all_chars is_word X = true ->
  nonempty C = true -> all_chars (cls_ok (NoneOf (ch ",}"))) C = true ->
  stops Space C = true -> clauses_ok m = true ->
  contains "db.query." C = false ->
  contains "db.query." (clauses_body m) = false ->
  fix_drizzle_syntax (findMany_call X C m ++ post)
  = "db.select().from(" ++ X ++ ").where(" ++ C ++ ")"
    ++ fix_drizzle_syntax post.
Proof.
  intros HX HXw HC HCc HCs Hm HqC Hqm.
  assert (Hcall : exists s, findMany_call X C m = String "d" s
                            /\ opens "db.query." s = false).
  { eexists. split; [reflexivity |]. now apply findMany_call_closed. }
  destruct Hcall as (s & Es & Hs).
  assert (H12 : forall r2 t,
            match_here (Lit "db.query." >> Group 1 (Many1 Word)
                        >> Lit ".findFirst({" >> r2)
              (findMany_call X C m ++ t) = None).
  { intros r2 t. unfold findMany_call. rewrite !append_assoc.
    apply rule_not_at_start; [assumption | reflexivity | reflexivity]. }
  unfold fix_drizzle_syntax.
  unfold pattern1 at 1. rewrite Es, sub_skips, <- Es by (rewrite <- ?Es; auto).
  unfold pattern2 at 1. rewrite Es, sub_skips, <- Es by (rewrite <- ?Es; auto).
  fold pattern1 pattern2.
  rewrite (sub_match_first pattern3 _ _ _
             (<[2 := Some C]> (<[1 := Some X]> no_groups)));
    [ | rewrite Es; discriminate | now apply pattern3_matches_call_then ].
  change (expand replacement3 (<[2 := Some C]> (<[1 := Some X]> no_groups)))
    with ("db.select().from(" ++ X ++ ").where(" ++ C ++ ")").
  assert (Hout : opens "db.query."
                   ("db.select().from(" ++ X ++ ").where(" ++ C ++ ")") = false).
  { now rewrite (select_where_closed X C ")" ""). }
  unfold pattern4 at 1, pattern5 at 1.
  rewrite !sub_frame by assumption. now rewrite !append_assoc.
Qed.

(** X14.  The third rule inside a larger text.  A [findMany] call on a
    table [X] of word characters, with a condition [C] that has no comma and
    no closing brace and does not start with white space, followed by
    nothing, by an [orderBy:] clause or by a [limit:] clause without closing
    brace, is rewritten to [db.select().from(X).where(C)] when [db.query.]
    occurs neither in the condition nor in the clause.  The clause is
    dropped, white space between the condition and the closing brace stays
    in the condition, and what follows the call is transformed as if it
    stood alone. *)
Theorem fix_findMany_where (X C : string) (m : clauses) (post : string) :
  nonempty X = true -> all_chars is_word X = true ->
  nonempty C = true -> all_chars (cls_ok (NoneOf (ch ",}"))) C = true ->
  stops Space C = true -> clauses_ok m = true ->
  contains "db.query." C = false ->
  contains "db.query." (clauses_body m) = false ->
  fix_drizzle_syntax (findMany_call X C m ++ post)
  = "db.select().from(" ++ X ++ ").where(" ++ C ++ ")"
    ++ fix_drizzle_syntax post.
Proof. exact (fix_at_findMany X C m post). Qed.

Lemma fix_findMany_where_witness :
  fix_drizzle_syntax
    (findMany_call "posts" "isNull(author) "
       (OrderByClause " [desc(createdAt)], limit: 5 ") ++ ".then(f)")
  = "db.select().from(" ++ "posts" ++ ").where(" ++ "isNull(author) " ++ ")"
    ++ fix_drizzle_syntax ".then(f)".
Proof.
  apply (fix_findMany_where "posts" "isNull(author) "
           (OrderByClause " [desc(createdAt)], limit: 5 ") ".then(f)");
    reflexivity.
Defined.

(** ** Texts without nested calls *)












